(** * IdeasPlatform: the search / filter / paginate pipeline of
      [src/components/IdeasTable.tsx]

    The component keeps eight React state cells, derives the category
    facets, the filtered ideas and the visible page from them on every
    render, and changes them from event handlers, one effect and one
    debounced timer.  The development embeds

    - the JavaScript built-ins the component calls ([Js]);
    - the derived values of a render ([categories], [filteredIdeas],
      [totalPages], [currentPageIdeas]);
    - [fetchIdeas], on the raw outcome of [fetch] and [response.json()];
    - the event handlers, the page-reset effect and the debounce timer, as
      a step function on the component state. *)

From Stdlib Require Import String Ascii List ZArith Lia Bool DecimalString.
Import ListNotations.
Set Warnings "-register-all".
Open Scope string_scope.
Open Scope Z_scope.

(** ** JavaScript built-ins used by the component *)

Module Js.

(** A string is a sequence of code units; the model covers the units
    0..255 (Latin-1), which [ascii] enumerates.  On these [toLowerCase]
    below is the lower-casing of JavaScript; on other strings JavaScript's
    can change the length of a string and depend on the neighbours of a
    letter.  The properties of the filter therefore use [toLowerCase] only
    as the code does, comparing lower-cased strings, and through two facts
    that hold of every string: the empty string is its own lower case, and
    lower-casing twice is lower-casing once. *)

(** Default Unicode lower-casing of one code unit in 0..255: A-Z and the
    Latin-1 capitals U+00C0..U+00DE (without the sign U+00D7) move up by
    32; every other unit is its own lower case. *)
Definition lowerUnit (c : ascii) : ascii :=
  let n := N_of_ascii c in
  if ((65 <=? n) && (n <=? 90)
      || (192 <=? n) && (n <=? 222) && negb (n =? 215))%N
  then ascii_of_N (n + 32)
  else c.

(** [String.prototype.toLowerCase]. *)
Fixpoint toLowerCase (s : string) : string :=
  match s with
  | EmptyString => EmptyString
  | String c s' => String (lowerUnit c) (toLowerCase s')
  end.

(** [String.prototype.startsWith(sub)] at position 0. *)
Fixpoint startsWith (s sub : string) {struct sub} : bool :=
  match sub, s with
  | EmptyString, _ => true
  | String a sub', String b s' => Ascii.eqb a b && startsWith s' sub'
  | String _ _, EmptyString => false
  end.

(** [String.prototype.includes(sub)]: [sub] occurs at some position. *)
Fixpoint includes (s sub : string) : bool :=
  startsWith s sub
  || match s with
     | EmptyString => false
     | String _ s' => includes s' sub
     end.

(** [Array.prototype.includes] on an array of strings (SameValueZero on
    strings is string equality). *)
Definition arrayIncludes (l : list string) (x : string) : bool :=
  existsb (String.eqb x) l.

(** [Set.prototype.add]: a set keeps its elements in insertion order and
    ignores an element it already holds. *)
Definition setAdd (s : list string) (x : string) : list string :=
  if arrayIncludes s x then s else s ++ [x].

(** [Array.from(new Set(l))]: the elements of [l] are added one by one,
    the array lists the set in insertion order. *)
Definition arrayFromSet (l : list string) : list string :=
  fold_left setAdd l [].

(** [Array.prototype.slice(start, end)] for integer arguments: a negative
    index counts from the end, both are clamped to [0, length]. *)
Definition slice {A : Type} (l : list A) (start end_ : Z) : list A :=
  let len := Z.of_nat (length l) in
  let k := if start <? 0 then Z.max (len + start) 0 else Z.min start len in
  let final := if end_ <? 0 then Z.max (len + end_) 0 else Z.min end_ len in
  firstn (Z.to_nat (final - k)) (skipn (Z.to_nat k) l).

(** [Math.ceil(n / d)] for an array length [n] and a positive integer
    [d].  The quotient of two such integers is an integer or is further
    from every integer than a double's rounding error, so the double
    computation returns the exact ceiling, computed here in [Z]. *)
Definition ceilDiv (n d : Z) : Z := (n + d - 1) / d.

(** [a.length] as a JavaScript number. *)
Definition len {A : Type} (l : list A) : Z := Z.of_nat (length l).

(** [x || y] on strings: the empty string is the only falsy one. *)
Definition truthyString (s : string) : bool := negb (s =? "")%string.

End Js.

(** ** Data model *)

(** [interface Idea]. *)
Record Idea := mkIdea {
  id : string;
  title : string;
  description : string;
  category : list string;
  prize : Z;
  difficulty : string
}.

(** The objects of the [categories] array: [{ id, name, count }]. *)
Module Category.
Record t := mk { id : string; name : string; count : Z }.
End Category.

Definition ITEMS_PER_PAGE : Z := 6.

(** The state cells of [IdeasPlatform] (lines 30-37), followed by the two
    pieces of run-time state the debounce needs: the [timeoutId] captured by
    the closure [debounce] returns, holding the due time and the argument of
    the pending call, and the clock [now], in milliseconds. *)
Record State := mkState {
  ideas : list Idea;
  loading : bool;
  error : option string;
  activeCategory : string;
  searchQuery : string;
  view : string;
  currentPage : Z;
  isSearching : bool;
  timeoutId : option (Z * string);
  now : Z
}.

(** The state after mounting: the initial values of the [useState] calls. *)
Definition initialState : State :=
  {| ideas := []; loading := true; error := None; activeCategory := "All";
     searchQuery := ""; view := "grid"; currentPage := 1;
     isSearching := false; timeoutId := None; now := 0 |}.

(** ** Values derived on every render *)

(** [categories] (lines 64-76). *)
Definition categories (ideas : list Idea) : list Category.t :=
  let allCategories := flat_map category ideas in
  let uniqueCategories := Js.arrayFromSet allCategories in
  Category.mk "all" "All" (Js.len ideas)
  :: map (fun category0 =>
            Category.mk category0 category0
              (Js.len (filter (fun idea => Js.arrayIncludes (category idea) category0)
                         ideas)))
       uniqueCategories.

(** The predicate of the [filter] call of lines 102-106. *)
Definition matchesFilter (activeCategory searchQuery : string) (idea : Idea) : bool :=
  ((activeCategory =? "All")%string || Js.arrayIncludes (category idea) activeCategory)
  && (Js.includes (Js.toLowerCase (title idea)) (Js.toLowerCase searchQuery)
      || Js.includes (Js.toLowerCase (description idea)) (Js.toLowerCase searchQuery)).

(** [filteredIdeas] (lines 102-106). *)
Definition filteredIdeas (st : State) : list Idea :=
  filter (matchesFilter (activeCategory st) (searchQuery st)) (ideas st).

(** Lines 108-111. *)
Definition totalPages (st : State) : Z :=
  Js.ceilDiv (Js.len (filteredIdeas st)) ITEMS_PER_PAGE.

Definition startIndex (st : State) : Z := (currentPage st - 1) * ITEMS_PER_PAGE.

Definition endIndex (st : State) : Z := startIndex st + ITEMS_PER_PAGE.

Definition currentPageIdeas (st : State) : list Idea :=
  Js.slice (filteredIdeas st) (startIndex st) (endIndex st).

(** ** Loading: [fetchIdeas] (lines 39-62) *)

Module Fetch.

(** What [response.json()] can resolve to.  A number is held as the text
    that Number::toString gives for it: 404 is ["404"], 0.5 is ["0.5"],
    1e21 is ["1e+21"], and 9007199254740993, which parsing rounds to the
    nearest double, is ["9007199254740992"].  The text determines the
    number; it is what ToString returns, and the number is falsy exactly
    when the text is ["0"] (a JSON body has no NaN, and -0 prints as 0). *)
Inductive Json :=
| JNull
| JBool (b : bool)
| JNum (text : string)
| JStr (s : string)
| JArr (items : list Json)
| JObj (members : list (string * Json)).

(** A JavaScript value read from the payload: [undefined] or a value. *)
Inductive Value := Undefined | Val (v : Json).

(** The outcome of the two awaited promises: [fetch] rejects (network
    error) or resolves to a response, whose [json()] rejects (the body is
    not JSON) or resolves to the parsed body. *)
Inductive Body := Unparseable (message : string) | Parsed (data : Json).
Inductive FetchResult := Rejected (message : string) | Resolved (ok : bool) (body : Body).

(** Evaluation that may throw; only the [message] of the error is read. *)
Inductive Except (A : Type) := Return (a : A) | Throw (message : string).
Arguments Return {A} a.
Arguments Throw {A} message.

Definition bind {A B : Type} (m : Except A) (k : A -> Except B) : Except B :=
  match m with
  | Return a => k a
  | Throw e => Throw e
  end.

Notation "x <- m ;; k" := (bind m (fun x => k))
  (at level 61, m at next level, right associativity).

(** The own property [key] of a parsed object; of two members with the
    same key [JSON.parse] keeps the later one. *)
Fixpoint lookup (key : string) (members : list (string * Json)) : option Json :=
  match members with
  | [] => None
  | (k, v) :: rest =>
      match lookup key rest with
      | Some v' => Some v'
      | None => if (k =? key)%string then Some v else None
      end
  end.

(** [data.key] for the keys the component reads: [details] and [error] at
    line 47, [category] at line 65.  Reading a property of [null] throws a
    TypeError (message of V8); no primitive and no array has a property of
    one of these names. *)
Definition getProperty (data : Json) (key : string) : Except Value :=
  match data with
  | JNull => Throw ("Cannot read properties of null (reading '" ++ key ++ "')")
  | JObj members =>
      match lookup key members with
      | Some v => Return (Val v)
      | None => Return Undefined
      end
  | _ => Return Undefined
  end.

(** ToBoolean, which decides [||]. *)
Definition truthy (v : Value) : bool :=
  match v with
  | Undefined => false
  | Val JNull => false
  | Val (JBool b) => b
  | Val (JNum text) => negb (text =? "0")%string
  | Val (JStr s) => Js.truthyString s
  | Val (JArr _) => true
  | Val (JObj _) => true
  end.

(** ToString of a parsed value; an array joins its elements with commas,
    [null] elements printing as the empty string. *)
Fixpoint toString (v : Json) : string :=
  match v with
  | JNull => "null"
  | JBool true => "true"
  | JBool false => "false"
  | JNum text => text
  | JStr s => s
  | JArr items =>
      (fix join (l : list Json) : string :=
         match l with
         | [] => ""
         | x :: rest =>
             let sx := match x with JNull => "" | _ => toString x end in
             match rest with
             | [] => sx
             | _ :: _ => sx ++ "," ++ join rest
             end
         end) items
  | JObj _ => "[object Object]"
  end.

(** [new Error(message).message]: ToString of the argument. *)
Definition errorMessage (v : Value) : string :=
  match v with
  | Undefined => ""
  | Val j => toString j
  end.

(** The three state cells [fetchIdeas] writes.  At run time [ideas] holds
    whatever [setIdeas] received: the parsed body, unchecked. *)
Record Cells := mkCells {
  ideas : Json;
  loading : bool;
  error : option string
}.

Definition setIdeas (data : Json) (c : Cells) : Cells :=
  {| ideas := data; loading := loading c; error := error c |}.
Definition setLoading (b : bool) (c : Cells) : Cells :=
  {| ideas := ideas c; loading := b; error := error c |}.
Definition setError (m : string) (c : Cells) : Cells :=
  {| ideas := ideas c; loading := loading c; error := Some m |}.

(** The cells when the effect of line 39 starts [fetchIdeas]:
    [useState([])], [setLoading(true)], [useState(null)]. *)
Definition initialCells : Cells :=
  {| ideas := JArr []; loading := true; error := None |}.

(** The argument of [new Error(...)] at line 47:
    [data.details || data.error || 'Failed to fetch ideas']. *)
Definition failureDetail (data : Json) : Except Value :=
  details <- getProperty data "details" ;;
  if truthy details then Return details
  else
    err <- getProperty data "error" ;;
    if truthy err then Return err
    else Return (Val (JStr "Failed to fetch ideas")).

(** The [try] block (lines 43-51). *)
Definition tryBlock (r : FetchResult) (c : Cells) : Except Cells :=
  match r with
  | Rejected m => Throw m
  | Resolved ok body =>
      match body with
      | Unparseable m => Throw m
      | Parsed data =>
          if negb ok then
            v <- failureDetail data ;;
            Throw (errorMessage v)
          else Return (setLoading false (setIdeas data c))
      end
  end.

(** [fetchIdeas]: [try], [catch] (lines 52-55) and [finally] (line 57). *)
Definition fetchIdeas (r : FetchResult) (c : Cells) : Cells :=
  let afterCatch :=
    match tryBlock r c with
    | Return c' => c'
    | Throw m => setLoading false (setError m c)
    end in
  setLoading false afterCatch.

(** [if (error)] (line 140) on the raw cells: the error card is rendered
    for a truthy message. *)
Definition errorCardShown (c : Cells) : bool :=
  match error c with
  | Some m => Js.truthyString m
  | None => false
  end.

(** The callback of [ideas.flatMap(idea => idea.category)] (line 65),
    applied to the elements in turn: [flatMap] appends the elements of an
    array result and appends any other result as it is. *)
Fixpoint flatMapCategory (items : list Json) : Except (list Value) :=
  match items with
  | [] => Return []
  | idea :: rest =>
      v <- getProperty idea "category" ;;
      vs <- flatMapCategory rest ;;
      Return (match v with
              | Val (JArr l) => map Val l
              | _ => [v]
              end ++ vs)%list
  end.

(** [allCategories] (line 65), the first thing a render computes from the
    stored ideas, outside the [try] block of [fetchIdeas].  Only an array
    has a [flatMap] method (messages of V8). *)
Definition allCategories (ideas : Json) : Except (list Value) :=
  match ideas with
  | JArr items => flatMapCategory items
  | JNull => Throw "Cannot read properties of null (reading 'flatMap')"
  | _ => Throw "ideas.flatMap is not a function"
  end.

(** The payload read at the declared type [Idea[]]: every element is an
    object with the six fields of [interface Idea] at their types. *)
Definition asString (v : option Json) : option string :=
  match v with Some (JStr s) => Some s | _ => None end.

(** [prize] is read as an integer: the number must print as one. *)
Definition asNumber (v : option Json) : option Z :=
  match v with
  | Some (JNum text) => option_map Z.of_int (NilZero.int_of_string text)
  | _ => None
  end.

Fixpoint asStrings (l : list Json) : option (list string) :=
  match l with
  | [] => Some []
  | JStr s :: rest =>
      match asStrings rest with
      | Some ss => Some (s :: ss)
      | None => None
      end
  | _ :: _ => None
  end.

Definition asStringArray (v : option Json) : option (list string) :=
  match v with Some (JArr l) => asStrings l | _ => None end.

Definition asIdea (v : Json) : option Idea :=
  match v with
  | JObj m =>
      match asString (lookup "id" m), asString (lookup "title" m),
            asString (lookup "description" m), asStringArray (lookup "category" m),
            asNumber (lookup "prize" m), asString (lookup "difficulty" m) with
      | Some i, Some t, Some d, Some c, Some p, Some f => Some (mkIdea i t d c p f)
      | _, _, _, _, _, _ => None
      end
  | _ => None
  end.

Fixpoint asIdeaList (l : list Json) : option (list Idea) :=
  match l with
  | [] => Some []
  | v :: rest =>
      match asIdea v, asIdeaList rest with
      | Some i, Some is_ => Some (i :: is_)
      | _, _ => None
      end
  end.

Definition asIdeas (data : Json) : option (list Idea) :=
  match data with
  | JArr l => asIdeaList l
  | _ => None
  end.

End Fetch.

(** The load state held by the cells [loading] and [error]: failed, with
    its message, once [error] is set; loading until [loading] is cleared.
    Whether the error card is on the screen is a further test, on the
    message itself: [errorShown] and [Fetch.errorCardShown]. *)
Inductive LoadState := Loading | Ready | Failed (message : string).

Definition loadStateOf (loading : bool) (error : option string) : LoadState :=
  match error with
  | Some m => Failed m
  | None => if loading then Loading else Ready
  end.

Definition cellsLoadState (c : Fetch.Cells) : LoadState :=
  loadStateOf (Fetch.loading c) (Fetch.error c).

Definition loadState (st : State) : LoadState :=
  loadStateOf (loading st) (error st).

(** ** State setters *)

Definition setIdeas (v : list Idea) (st : State) : State :=
  mkState v (loading st) (error st) (activeCategory st) (searchQuery st)
    (view st) (currentPage st) (isSearching st) (timeoutId st) (now st).

Definition setLoading (v : bool) (st : State) : State :=
  mkState (ideas st) v (error st) (activeCategory st) (searchQuery st)
    (view st) (currentPage st) (isSearching st) (timeoutId st) (now st).

Definition setError (v : string) (st : State) : State :=
  mkState (ideas st) (loading st) (Some v) (activeCategory st) (searchQuery st)
    (view st) (currentPage st) (isSearching st) (timeoutId st) (now st).

Definition setActiveCategory (v : string) (st : State) : State :=
  mkState (ideas st) (loading st) (error st) v (searchQuery st)
    (view st) (currentPage st) (isSearching st) (timeoutId st) (now st).

Definition setSearchQuery (v : string) (st : State) : State :=
  mkState (ideas st) (loading st) (error st) (activeCategory st) v
    (view st) (currentPage st) (isSearching st) (timeoutId st) (now st).

Definition setView (v : string) (st : State) : State :=
  mkState (ideas st) (loading st) (error st) (activeCategory st) (searchQuery st)
    v (currentPage st) (isSearching st) (timeoutId st) (now st).

(** The setter of [currentPage]: it stores its argument as it is. *)
Definition setCurrentPage (v : Z) (st : State) : State :=
  mkState (ideas st) (loading st) (error st) (activeCategory st) (searchQuery st)
    (view st) v (isSearching st) (timeoutId st) (now st).

Definition setIsSearching (v : bool) (st : State) : State :=
  mkState (ideas st) (loading st) (error st) (activeCategory st) (searchQuery st)
    (view st) (currentPage st) v (timeoutId st) (now st).

Definition setTimeoutId (v : option (Z * string)) (st : State) : State :=
  mkState (ideas st) (loading st) (error st) (activeCategory st) (searchQuery st)
    (view st) (currentPage st) (isSearching st) v (now st).

Definition setNow (v : Z) (st : State) : State :=
  mkState (ideas st) (loading st) (error st) (activeCategory st) (searchQuery st)
    (view st) (currentPage st) (isSearching st) (timeoutId st) v.

(** ** What a render puts on the screen *)

(** [if (error)] (line 140): the error card replaces the whole view. *)
Definition errorShown (st : State) : bool :=
  match error st with
  | Some m => Js.truthyString m
  | None => false
  end.

(** The search input, the category buttons and the view buttons are part of
    every render of the main view. *)
Definition controlsShown (st : State) : bool := negb (errorShown st).

(** [isSearching || loading ? <GridSkeleton /> : ...] (line 239). *)
Definition resultsShown (st : State) : bool :=
  controlsShown st && negb (isSearching st || loading st).

(** [totalPages > 1 && <Pagination>] (lines 281 and 355), in both views. *)
Definition paginationShown (st : State) : bool :=
  resultsShown st && (1 <? totalPages st).

(** One button per entry of [categories] (lines 197-212). *)
Definition categoryButtonShown (st : State) (name : string) : bool :=
  controlsShown st
  && existsb (fun c => (Category.name c =? name)%string) (categories (ideas st)).

(** One link per [i] of the loop of [generatePaginationItems]. *)
Definition pageLinkShown (st : State) (i : Z) : bool :=
  paginationShown st && (1 <=? i) && (i <=? totalPages st).

(** ** Handlers, the effect and the timer *)

(** The delay passed to [debounce] (line 91). *)
Definition DEBOUNCE_DELAY : Z := 500.

(** The function [debounce] returns, for [handleSearch]: [clearTimeout]
    drops the pending call, [setTimeout] installs the new one. *)
Definition handleSearch (query : string) (st : State) : State :=
  setTimeoutId (Some (now st + DEBOUNCE_DELAY, query)) (setTimeoutId None st).

(** The callback wrapped by [debounce] (lines 88-91). *)
Definition debouncedCallback (query : string) (st : State) : State :=
  setIsSearching false (setSearchQuery query st).

(** [onSearchInputChange] (lines 95-100). *)
Definition onSearchInputChange (query : string) (st : State) : State :=
  handleSearch query (setIsSearching true (setSearchQuery query st)).

(** The effect of lines 113-115, run after a render whose
    [activeCategory] or [searchQuery] differs from the previous render's. *)
Definition depsChanged (prev next : State) : bool :=
  negb ((activeCategory prev =? activeCategory next)%string
        && (searchQuery prev =? searchQuery next)%string).

Definition pageResetEffect (prev next : State) : State :=
  if depsChanged prev next then setCurrentPage 1 next else next.

(** What can happen to a mounted component.  The two completions of
    [fetchIdeas] are the ones [Fetch.fetchIdeas] distinguishes, the stored
    payload read at its declared type. *)
Inductive Event :=
| FetchOk (data : list Idea)
| FetchFailed (message : string)
| SearchInput (query : string)
| CategoryClick (name : string)
| ViewClick (v : string)
| PageClick (i : Z)
| PreviousClick
| NextClick
| Elapse (ms : Z).

(** The state change an event asks for, before the effect.  An event on an
    element that is not on the screen changes nothing; [fetchIdeas] is
    started once, on mount, and completes while [loading] is still set. *)
Definition handle (e : Event) (st : State) : State :=
  match e with
  | FetchOk data =>
      if loading st then setLoading false (setLoading false (setIdeas data st)) else st
  | FetchFailed m =>
      if loading st then setLoading false (setLoading false (setError m st)) else st
  | SearchInput query =>
      if controlsShown st then onSearchInputChange query st else st
  | CategoryClick name =>
      if categoryButtonShown st name then setActiveCategory name st else st
  | ViewClick v =>
      if controlsShown st then setView v st else st
  | PageClick i =>
      if pageLinkShown st i then setCurrentPage i st else st
  | PreviousClick =>
      if paginationShown st then setCurrentPage (Z.max 1 (currentPage st - 1)) st else st
  | NextClick =>
      if paginationShown st
      then setCurrentPage (Z.min (totalPages st) (currentPage st + 1)) st
      else st
  | Elapse ms =>
      if ms <? 0 then st
      else
        let t := now st + ms in
        match timeoutId st with
        | Some (due, query) =>
            if due <=? t
            then setNow t (setTimeoutId None (debouncedCallback query st))
            else setNow t st
        | None => setNow t st
        end
  end.

(** Whether the step of [e] runs the debounced callback. *)
Definition firesTimeout (e : Event) (st : State) : bool :=
  match e, timeoutId st with
  | Elapse ms, Some (due, _) => (0 <=? ms) && (due <=? now st + ms)
  | _, _ => false
  end.

(** One event: the handler, the render, the effect. *)
Definition step (st : State) (e : Event) : State :=
  pageResetEffect st (handle e st).

Definition run (st : State) (events : list Event) : State :=
  fold_left step events st.

(** The states a session passes through, in order, from [st] on. *)
Fixpoint trace (st : State) (events : list Event) : list State :=
  match events with
  | [] => [st]
  | e :: rest => st :: trace (step st e) rest
  end.

(** How many times the debounced callback runs along [events]. *)
Fixpoint timeoutRuns (st : State) (events : list Event) : nat :=
  match events with
  | [] => 0%nat
  | e :: rest =>
      ((if firesTimeout e st then 1 else 0) + timeoutRuns (step st e) rest)%nat
  end.

(** A burst of [setSearchInput] calls: the first one now, each later one
    [gap] milliseconds after the one before it. *)
Definition burst (first : string) (rest : list (Z * string)) : list Event :=
  SearchInput first
  :: flat_map (fun gq => [Elapse (fst gq); SearchInput (snd gq)]) rest.

(** ** The interface of the specification *)

(** [clamp(n, lo, hi)]. *)
Definition clamp (n lo hi : Z) : Z := Z.max lo (Z.min n hi).

(** [xs] keeps some elements of [ys], in the order of [ys]. *)
Inductive Subseq {A : Type} : list A -> list A -> Prop :=
| Subseq_nil : Subseq [] []
| Subseq_skip : forall x xs ys, Subseq xs ys -> Subseq xs (x :: ys)
| Subseq_keep : forall x xs ys, Subseq xs ys -> Subseq (x :: xs) (x :: ys).

(** [n] elements of [l] satisfy [P]. *)
Inductive Counts {A : Type} (P : A -> Prop) : list A -> nat -> Prop :=
| Counts_nil : Counts P [] 0
| Counts_yes : forall x l n, P x -> Counts P l n -> Counts P (x :: l) (S n)
| Counts_no : forall x l n, ~ P x -> Counts P l n -> Counts P (x :: l) n.

(** [labels] lists elements of [all] in first-seen order: whatever stands
    before the first occurrence of a label in [all] is listed before that
    label. *)
Definition FirstSeen (all labels : list string) : Prop :=
  forall r1 c r2, labels = (r1 ++ c :: r2)%list ->
    exists l1 l2,
      all = (l1 ++ c :: l2)%list /\ ~ In c l1 /\ (forall x, In x l1 -> In x r1).

(** [s] contains [q] case-insensitively: once both are lower-cased, [q]
    occurs in [s], between some [pre] and some [post]. *)
Definition ContainsIgnoringCase (s q : string) : Prop :=
  exists pre post,
    Js.toLowerCase s = (pre ++ Js.toLowerCase q ++ post)%string.

(** The values [searchQuery] takes along a trace, one per change. *)
Fixpoint searchQueryCommits (tr : list State) : list string :=
  match tr with
  | [] => []
  | st :: rest =>
      match rest with
      | [] => []
      | st' :: _ =>
          if (searchQuery st =? searchQuery st')%string
          then searchQueryCommits rest
          else searchQuery st' :: searchQueryCommits rest
      end
  end.

(** The last query of a burst. *)
Definition lastQuery (first : string) (rest : list (Z * string)) : string :=
  last (map snd rest) first.

(** A call is pending for [q]: it was issued at the present instant, the
    query is already stored and the skeleton is shown. *)
Definition Pending (s : State) (q : string) : Prop :=
  controlsShown s = true /\ searchQuery s = q /\ isSearching s = true
  /\ timeoutId s = Some (now s + DEBOUNCE_DELAY, q).

(** What the handlers keep true: the page number is in range, and the
    collection is empty until the load has succeeded. *)
Definition Inv (st : State) : Prop :=
  1 <= currentPage st <= Z.max 1 (totalPages st)
  /\ (loading st = true -> error st = None /\ ideas st = [])
  /\ (error st <> None -> ideas st = []).

(** The completion event a raw outcome of the request leads to: the error
    of the [catch] block, or the stored payload when it inhabits [Idea[]]. *)
Definition completion (r : Fetch.FetchResult) : option Event :=
  let c := Fetch.fetchIdeas r Fetch.initialCells in
  match Fetch.error c with
  | Some m => Some (FetchFailed m)
  | None =>
      match Fetch.asIdeas (Fetch.ideas c) with
      | Some data => Some (FetchOk data)
      | None => None
      end
  end.

(** ** The pagination bar *)

(** The page an event asks for, before any clamping: the number of a
    rendered link (line 124), [currentPage - 1] for Previous (line 289) and
    [currentPage + 1] for Next (line 302); no other event asks for a page,
    and none does while the bar is not rendered. *)
Definition requestedPage (st : State) (e : Event) : option Z :=
  match e with
  | PageClick i => if pageLinkShown st i then Some i else None
  | PreviousClick => if paginationShown st then Some (currentPage st - 1) else None
  | NextClick => if paginationShown st then Some (currentPage st + 1) else None
  | _ => None
  end.

(** One [<PaginationItem>] of [generatePaginationItems] (lines 121-134):
    its React key, which is also its label, the [isActive] flag of its link
    and the state change of its [onClick]. *)
Record PaginationItem := mkPaginationItem {
  key : Z;
  isActive : bool;
  onClick : State -> State
}.

(** [generatePaginationItems] (lines 117-138): the loop pushes one item for
    [i = 1], ..., [totalPages], in this order, and none when [totalPages] is
    below 1. *)
Definition generatePaginationItems (st : State) : list PaginationItem :=
  map (fun n : nat =>
         let i := Z.of_nat n in
         mkPaginationItem i (currentPage st =? i) (setCurrentPage i))
    (seq 1 (Z.to_nat (totalPages st))).

(** The class [pointer-events-none opacity-50] of Previous (lines 291 and
    361) and of Next (lines 304 and 369). *)
Definition previousInert (st : State) : bool := currentPage st =? 1.

Definition nextInert (st : State) : bool := currentPage st =? totalPages st.

(** The ideas of page [p]: what [currentPageIdeas] is once [currentPage] is
    [p]. *)
Definition pageIdeas (st : State) (p : Z) : list Idea :=
  currentPageIdeas (setCurrentPage p st).

(** What the debounce keeps true: the skeleton of a search is shown exactly
    while a call is pending, the pending call carries the query that is
    already stored, and it is due within the delay. *)
Definition TimerInv (st : State) : Prop :=
  match timeoutId st with
  | Some (due, q) =>
      isSearching st = true /\ searchQuery st = q
      /\ now st < due <= now st + DEBOUNCE_DELAY
  | None => isSearching st = false
  end.

(** ** Sample data: the scenarios of the specification *)

Definition sampleIdea (n : string) (cats : list string) : Idea :=
  mkIdea ("rec" ++ n) ("Idea " ++ n) ("Description of idea " ++ n) cats 100 "Medium".

(** Seven ideas, five of them tagged AI. *)
Definition sampleIdeas : list Idea :=
  [ sampleIdea "1" ["AI"; "Web"]; sampleIdea "2" ["AI"]; sampleIdea "3" ["Web"];
    sampleIdea "4" ["AI"; "Crypto"]; sampleIdea "5" ["AI"]; sampleIdea "6" [];
    sampleIdea "7" ["Crypto"; "AI"] ].

(** The session once [sampleIdeas] has been loaded. *)
Definition sampleLoaded : State := step initialState (FetchOk sampleIdeas).

(** A success response whose body is JSON but not an array of ideas. *)
Definition malformedPayload : Fetch.Json :=
  Fetch.JObj [("records", Fetch.JArr [])].

(** The error response of scenario D. *)
Definition rateLimited : Fetch.FetchResult :=
  Fetch.Resolved false (Fetch.Parsed (Fetch.JObj [("error", Fetch.JStr "rate limited")])).

(** * Properties *)

(** ** Scenarios *)

Example scenario_A :
  totalPages sampleLoaded = 2
  /\ map id (currentPageIdeas sampleLoaded)
     = ["rec1"; "rec2"; "rec3"; "rec4"; "rec5"; "rec6"]
  /\ map id (currentPageIdeas (step sampleLoaded NextClick)) = ["rec7"].
Proof. repeat split; reflexivity. Qed.

Example scenario_B :
  let st := step sampleLoaded (CategoryClick "AI") in
  totalPages st = 1
  /\ map id (currentPageIdeas st) = ["rec1"; "rec2"; "rec4"; "rec5"; "rec7"]
  /\ paginationShown st = false.
Proof. repeat split; reflexivity. Qed.

Example scenario_C :
  let st := run sampleLoaded [SearchInput "robot"; Elapse 500] in
  currentPageIdeas st = [] /\ totalPages st = 0 /\ currentPage st = 1.
Proof. repeat split; reflexivity. Qed.

Example scenario_D :
  cellsLoadState (Fetch.fetchIdeas rateLimited Fetch.initialCells) = Failed "rate limited".
Proof. reflexivity. Qed.

Example sample_categories :
  map (fun c => (Category.name c, Category.count c)) (categories sampleIdeas)
  = [("All", 7); ("AI", 5); ("Web", 2); ("Crypto", 2)].
Proof. reflexivity. Qed.

Example asIdeas_sample :
  Fetch.asIdeas
    (Fetch.JArr
       [Fetch.JObj [("id", Fetch.JStr "rec1"); ("title", Fetch.JStr "Idea 1");
                    ("description", Fetch.JStr "Description of idea 1");
                    ("category", Fetch.JArr [Fetch.JStr "AI"; Fetch.JStr "Web"]);
                    ("prize", Fetch.JNum "100"); ("difficulty", Fetch.JStr "Medium")]])
  = Some [sampleIdea "1" ["AI"; "Web"]].
Proof. reflexivity. Qed.

Example toLowerCase_sample : Js.toLowerCase "Robot AI" = "robot ai".
Proof. reflexivity. Qed.

Example toString_sample :
  Fetch.toString
    (Fetch.JArr [Fetch.JNum "12"; Fetch.JNull; Fetch.JStr "x"; Fetch.JBool true])
  = "12,,x,true".
Proof. reflexivity. Qed.

(** ** Facts about the built-ins *)

Section StringFacts.

Lemma startsWith_app (sub post : string) :
  Js.startsWith (sub ++ post) sub = true.
Proof.
  induction sub as [|a sub IH]; simpl; [reflexivity|].
  now rewrite Ascii.eqb_refl.
Qed.

Lemma startsWith_inv (s sub : string) :
  Js.startsWith s sub = true -> exists post, s = (sub ++ post)%string.
Proof.
  revert s; induction sub as [|a sub IH]; intros s H.
  - exists s; reflexivity.
  - destruct s as [|b s]; simpl in H; [discriminate|].
    apply andb_true_iff in H as [Hab Hs].
    apply Ascii.eqb_eq in Hab; subst b.
    destruct (IH s Hs) as [post ->].
    exists post; reflexivity.
Qed.

Lemma startsWith_includes (s sub : string) :
  Js.startsWith s sub = true -> Js.includes s sub = true.
Proof. intros H; destruct s; simpl; now rewrite H. Qed.

(** [includes] is the substring test. *)
Lemma includes_spec (s sub : string) :
  Js.includes s sub = true
  <-> exists pre post, s = (pre ++ sub ++ post)%string.
Proof.
  split.
  - induction s as [|b s IH]; simpl; intros H.
    + apply orb_true_iff in H as [H|H]; [|discriminate].
      apply startsWith_inv in H as [post E].
      exists EmptyString, post; exact E.
    + apply orb_true_iff in H as [H|H].
      * apply startsWith_inv in H as [post E].
        exists EmptyString, post; exact E.
      * destruct (IH H) as (pre & post & ->).
        exists (String b pre), post; reflexivity.
  - intros (pre & post & ->).
    induction pre as [|b pre IH].
    + change (Js.includes (sub ++ post) sub = true).
      apply startsWith_includes, startsWith_app.
    + simpl; simpl in IH; rewrite IH; apply orb_true_r.
Qed.

Lemma includes_empty (s : string) : Js.includes s "" = true.
Proof. destruct s; reflexivity. Qed.

(** The test of lines 104-105 decides case-insensitive containment. *)
Lemma includes_toLowerCase (s q : string) :
  Js.includes (Js.toLowerCase s) (Js.toLowerCase q) = true
  <-> ContainsIgnoringCase s q.
Proof. apply includes_spec. Qed.


Lemma arrayIncludes_spec (l : list string) (x : string) :
  Js.arrayIncludes l x = true <-> In x l.
Proof.
  unfold Js.arrayIncludes; rewrite existsb_exists; split.
  - intros (y & Hy & E); apply String.eqb_eq in E; now subst.
  - intros H; exists x; split; [assumption | apply String.eqb_refl].
Qed.

Lemma arrayIncludes_false (l : list string) (x : string) :
  Js.arrayIncludes l x = false <-> ~ In x l.
Proof.
  rewrite <- arrayIncludes_spec; destruct (Js.arrayIncludes l x); split;
    congruence.
Qed.

End StringFacts.

Section ListFacts.

Context {A : Type}.

Lemma Subseq_refl (l : list A) : Subseq l l.
Proof. induction l; [apply Subseq_nil | apply Subseq_keep; assumption]. Qed.

Lemma Subseq_nil_l (l : list A) : Subseq [] l.
Proof. induction l; constructor; assumption. Qed.

Lemma Subseq_trans (xs ys zs : list A) :
  Subseq xs ys -> Subseq ys zs -> Subseq xs zs.
Proof.
  intros H1 H2; revert xs H1.
  induction H2 as [|z ys zs H2 IH|z ys zs H2 IH]; intros xs H1.
  - assumption.
  - apply Subseq_skip; auto.
  - inversion H1; subst; [apply Subseq_skip | apply Subseq_keep]; auto.
Qed.

Lemma Subseq_In (xs ys : list A) (x : A) :
  Subseq xs ys -> In x xs -> In x ys.
Proof.
  induction 1 as [|y xs ys H IH|y xs ys H IH]; simpl; intuition.
Qed.

Lemma Subseq_filter (f : A -> bool) (l : list A) : Subseq (filter f l) l.
Proof.
  induction l as [|x l IH]; simpl; [constructor|].
  destruct (f x); [apply Subseq_keep | apply Subseq_skip]; assumption.
Qed.

Lemma Subseq_firstn (n : nat) (l : list A) : Subseq (firstn n l) l.
Proof.
  revert l; induction n as [|n IH]; intros [|x l]; simpl;
    try apply Subseq_nil_l; apply Subseq_keep, IH.
Qed.

Lemma Subseq_skipn (n : nat) (l : list A) : Subseq (skipn n l) l.
Proof.
  revert l; induction n as [|n IH]; intros [|x l]; simpl;
    try apply Subseq_refl; apply Subseq_skip, IH.
Qed.

(** A slice keeps a run of the array, in order. *)
Lemma slice_Subseq (l : list A) (a b : Z) : Subseq (Js.slice l a b) l.
Proof.
  unfold Js.slice.
  eapply Subseq_trans; [apply Subseq_firstn | apply Subseq_skipn].
Qed.

(** A slice holds at most [b - a] elements, unless it runs from a start
    counted from the front to an end counted from the back. *)
Lemma slice_length (l : list A) (a b : Z) :
  a < 0 \/ 0 <= b -> Z.of_nat (length (Js.slice l a b)) <= Z.max 0 (b - a).
Proof.
  intros Ha; unfold Js.slice.
  rewrite length_firstn, length_skipn.
  destruct (Z.ltb_spec a 0); destruct (Z.ltb_spec b 0); lia.
Qed.

(** With a start inside [0, end], [slice] is the usual half-open range. *)
Lemma slice_range (l : list A) (a b : Z) :
  0 <= a <= b ->
  Js.slice l a b = firstn (Z.to_nat (b - a)) (skipn (Z.to_nat a) l).
Proof.
  intros Hab; unfold Js.slice.
  destruct (Z.ltb_spec a 0); [lia|].
  destruct (Z.ltb_spec b 0); [lia|].
  destruct (Z.le_gt_cases (Z.of_nat (length l)) a) as [Hlen|Hlen].
  - replace (Z.min a (Z.of_nat (length l))) with (Z.of_nat (length l)) by lia.
    rewrite Nat2Z.id, skipn_all, firstn_nil.
    rewrite (skipn_all2 l) by lia.
    now rewrite firstn_nil.
  - replace (Z.min a (Z.of_nat (length l))) with a by lia.
    destruct (Z.le_gt_cases (Z.of_nat (length l)) b) as [Hb|Hb].
    + replace (Z.min b (Z.of_nat (length l))) with (Z.of_nat (length l)) by lia.
      rewrite !firstn_all2; [reflexivity | |]; rewrite length_skipn; lia.
    + now replace (Z.min b (Z.of_nat (length l))) with b by lia.
Qed.

Lemma slice_nil (a b : Z) : Js.slice (@nil A) a b = [].
Proof. unfold Js.slice; now rewrite skipn_nil, firstn_nil. Qed.

Lemma last_default (l : list A) (d d' : A) : l <> [] -> last l d = last l d'.
Proof.
  induction l as [|x [|y l] IH]; intros H; [congruence | reflexivity |].
  change (last (y :: l) d = last (y :: l) d'); apply IH; discriminate.
Qed.

Lemma Counts_filter (P : A -> Prop) (f : A -> bool) (l : list A) :
  (forall x, f x = true <-> P x) -> Counts P l (length (filter f l)).
Proof.
  intros Hf; induction l as [|x l IH]; simpl; [constructor|].
  destruct (f x) eqn:E; simpl.
  - apply Counts_yes; [now apply Hf | assumption].
  - apply Counts_no; [|assumption].
    intros HP; apply Hf in HP; congruence.
Qed.

(** [Counts] determines the number. *)
Lemma Counts_fun (P : A -> Prop) (l : list A) (n m : nat) :
  Counts P l n -> Counts P l m -> n = m.
Proof.
  intros Hn; revert m.
  induction Hn as [|x l n Hx Hn IH|x l n Hx Hn IH]; intros m Hm;
    inversion Hm; subst; auto; contradiction.
Qed.

End ListFacts.

Section CeilFacts.

(** [ceilDiv n d] is the least [k] with [n <= d * k]. *)
Lemma ceilDiv_spec (n d : Z) :
  0 < d -> d * (Js.ceilDiv n d - 1) < n <= d * Js.ceilDiv n d.
Proof.
  intros Hd; unfold Js.ceilDiv.
  pose proof (Z.div_mod (n + d - 1) d ltac:(lia)) as E.
  pose proof (Z.mod_pos_bound (n + d - 1) d Hd) as B.
  lia.
Qed.

Lemma ceilDiv_unique (n d k : Z) :
  0 < d -> d * (k - 1) < n <= d * k -> Js.ceilDiv n d = k.
Proof.
  intros Hd Hk; pose proof (ceilDiv_spec n d Hd); nia.
Qed.

Lemma ceilDiv_0 (d : Z) : 0 < d -> Js.ceilDiv 0 d = 0.
Proof. intros Hd; apply ceilDiv_unique; lia. Qed.

Lemma ceilDiv_pos (n d : Z) : 0 < d -> 0 < n -> 1 <= Js.ceilDiv n d.
Proof. intros Hd Hn; pose proof (ceilDiv_spec n d Hd); nia. Qed.

Lemma ceilDiv_nonneg (n d : Z) : 0 < d -> 0 <= n -> 0 <= Js.ceilDiv n d.
Proof. intros Hd Hn; pose proof (ceilDiv_spec n d Hd); nia. Qed.

End CeilFacts.

Section SetFacts.

Lemma arrayFromSet_snoc (l : list string) (x : string) :
  Js.arrayFromSet (l ++ [x]) = Js.setAdd (Js.arrayFromSet l) x.
Proof. unfold Js.arrayFromSet; now rewrite fold_left_app. Qed.

Lemma setAdd_In (s : list string) (x y : string) :
  In y (Js.setAdd s x) <-> In y s \/ y = x.
Proof.
  unfold Js.setAdd; destruct (Js.arrayIncludes s x) eqn:E.
  - apply arrayIncludes_spec in E; split; [auto | intros [H| ->]; assumption].
  - rewrite in_app_iff; simpl; intuition.
Qed.

(** The array holds exactly the elements of [l] ... *)
Lemma arrayFromSet_In (l : list string) (y : string) :
  In y (Js.arrayFromSet l) <-> In y l.
Proof.
  induction l as [|x l IH] using rev_ind; [reflexivity|].
  rewrite arrayFromSet_snoc, setAdd_In, IH, in_app_iff; simpl; intuition.
Qed.

(** ... each of them once ... *)
Lemma arrayFromSet_NoDup (l : list string) : NoDup (Js.arrayFromSet l).
Proof.
  induction l as [|x l IH] using rev_ind; [constructor|].
  rewrite arrayFromSet_snoc; unfold Js.setAdd.
  destruct (Js.arrayIncludes (Js.arrayFromSet l) x) eqn:E; [assumption|].
  apply arrayIncludes_false in E.
  rewrite <- (rev_involutive (Js.arrayFromSet l ++ [x])).
  apply NoDup_rev; rewrite rev_app_distr; simpl.
  constructor; [now rewrite <- in_rev | now apply NoDup_rev].
Qed.

Lemma snoc_split (r1 r2 s : list string) (c x : string) :
  (r1 ++ c :: r2 = s ++ [x])%list ->
  (r2 = [] /\ r1 = s /\ c = x)
  \/ exists r2', r2 = (r2' ++ [x])%list /\ s = (r1 ++ c :: r2')%list.
Proof.
  intros H; destruct r2 as [|z r2 _] using rev_ind.
  - left. apply app_inj_tail in H as [-> ->]; auto.
  - right; exists r2.
    change (r1 ++ c :: r2 ++ [z])%list with (r1 ++ (c :: r2) ++ [z])%list in H.
    rewrite app_assoc in H.
    apply app_inj_tail in H as [<- ->]; auto.
Qed.

(** ... in the order of their first occurrences. *)
Lemma arrayFromSet_FirstSeen (l : list string) : FirstSeen l (Js.arrayFromSet l).
Proof.
  induction l as [|x l IH] using rev_ind.
  - intros r1 c r2 H; destruct r1; discriminate.
  - intros r1 c r2 H.
    rewrite arrayFromSet_snoc in H; unfold Js.setAdd in H.
    destruct (Js.arrayIncludes (Js.arrayFromSet l) x) eqn:E.
    + destruct (IH r1 c r2 H) as (l1 & l2 & -> & Hc & Hl1).
      exists l1, (l2 ++ [x])%list; rewrite <- app_assoc; auto.
    + symmetry in H; apply snoc_split in H as [(-> & -> & ->)|(r2' & -> & H)].
      * apply arrayIncludes_false in E; rewrite arrayFromSet_In in E.
        exists l, []; repeat split; auto.
        intros y Hy; now apply arrayFromSet_In.
      * destruct (IH r1 c r2' H) as (l1 & l2 & -> & Hc & Hl1).
        exists l1, (l2 ++ [x])%list; rewrite <- app_assoc; auto.
Qed.

End SetFacts.

(** ** The derived values *)

Section Derived.

Lemma matchesFilter_spec (ac sq : string) (idea : Idea) :
  matchesFilter ac sq idea = true
  <-> (ac = "All" \/ In ac (category idea))
      /\ (ContainsIgnoringCase (title idea) sq
          \/ ContainsIgnoringCase (description idea) sq).
Proof.
  unfold matchesFilter.
  rewrite andb_true_iff, !orb_true_iff, String.eqb_eq, arrayIncludes_spec,
    !includes_toLowerCase.
  reflexivity.
Qed.

Lemma filteredIdeas_Subseq (st : State) : Subseq (filteredIdeas st) (ideas st).
Proof. apply Subseq_filter. Qed.

Lemma currentPageIdeas_Subseq (st : State) :
  Subseq (currentPageIdeas st) (filteredIdeas st).
Proof. apply slice_Subseq. Qed.

Lemma currentPageIdeas_length (st : State) :
  Z.of_nat (length (currentPageIdeas st)) <= ITEMS_PER_PAGE.
Proof.
  unfold currentPageIdeas, endIndex.
  etransitivity; [apply slice_length|]; unfold ITEMS_PER_PAGE; lia.
Qed.

Lemma totalPages_bounds (st : State) :
  ITEMS_PER_PAGE * (totalPages st - 1) < Js.len (filteredIdeas st)
  <= ITEMS_PER_PAGE * totalPages st.
Proof. apply ceilDiv_spec; reflexivity. Qed.

Lemma totalPages_nonneg (st : State) : 0 <= totalPages st.
Proof. apply ceilDiv_nonneg; [reflexivity | apply Nat2Z.is_nonneg]. Qed.

Lemma totalPages_no_match (st : State) :
  filteredIdeas st = [] -> totalPages st = 0.
Proof. unfold totalPages; intros ->; reflexivity. Qed.

Lemma totalPages_match (st : State) :
  filteredIdeas st <> [] -> 1 <= totalPages st.
Proof.
  intros H; apply ceilDiv_pos; [reflexivity|].
  unfold Js.len; destruct (filteredIdeas st); [congruence | simpl; lia].
Qed.

End Derived.



(** C5.  The visible ideas are the run of the filtered ideas from index
    [(currentPage-1)*pageSize] up to, not including, [currentPage*pageSize]
    (for a page number of at least 1, as pages are counted from 1); they are
    at most [pageSize] ideas, all of them loaded ideas that pass the filter,
    in load order; none when nothing matches. *)
Theorem C5_currentPageIdeas_slice (st : State) :
  (1 <= currentPage st ->
     currentPageIdeas st
     = firstn (Z.to_nat ITEMS_PER_PAGE)
         (skipn (Z.to_nat ((currentPage st - 1) * ITEMS_PER_PAGE)) (filteredIdeas st))
     /\ forall i : nat,
          nth_error (currentPageIdeas st) i
          = if (i <? Z.to_nat ITEMS_PER_PAGE)%nat
            then nth_error (filteredIdeas st)
                   (Z.to_nat ((currentPage st - 1) * ITEMS_PER_PAGE) + i)
            else None)
  /\ Z.of_nat (length (currentPageIdeas st)) <= ITEMS_PER_PAGE
  /\ Subseq (currentPageIdeas st) (filteredIdeas st)
  /\ Subseq (currentPageIdeas st) (ideas st)
  /\ (forall idea, In idea (currentPageIdeas st) ->
        In idea (ideas st)
        /\ matchesFilter (activeCategory st) (searchQuery st) idea = true)
  /\ (filteredIdeas st = [] -> currentPageIdeas st = []).
Proof.
  assert (Hslice : 1 <= currentPage st ->
                   currentPageIdeas st
                   = firstn (Z.to_nat ITEMS_PER_PAGE)
                       (skipn (Z.to_nat ((currentPage st - 1) * ITEMS_PER_PAGE))
                          (filteredIdeas st))).
  { intros Hp; unfold currentPageIdeas, endIndex, startIndex.
    rewrite slice_range by (unfold ITEMS_PER_PAGE; lia).
    f_equal; f_equal; lia. }
  split; [|split; [|split; [|split; [|split]]]].
  - intros Hp; split; [auto|].
    intros i; rewrite (Hslice Hp), nth_error_firstn, nth_error_skipn.
    reflexivity.
  - apply currentPageIdeas_length.
  - apply currentPageIdeas_Subseq.
  - eapply Subseq_trans; [apply currentPageIdeas_Subseq | apply filteredIdeas_Subseq].
  - intros idea H.
    apply (Subseq_In _ _ _ (currentPageIdeas_Subseq st)) in H.
    now apply filter_In in H.
  - unfold currentPageIdeas; intros ->; apply slice_nil.
Qed.

(** The second page of seven loaded ideas holds the seventh. *)
Lemma C5_currentPageIdeas_slice_witness :
  map id (currentPageIdeas (setCurrentPage 2 sampleLoaded)) = ["rec7"].
Proof.
  destruct (C5_currentPageIdeas_slice (setCurrentPage 2 sampleLoaded)) as [H _].
  destruct H as [H _]; [simpl; lia|].
  rewrite H; reflexivity.
Defined.

(** C6.  The facets are the ["All"] facet, counting all loaded ideas,
    followed by one facet per distinct category label of the loaded ideas,
    in first-seen order, each counting the ideas whose categories contain
    its label. *)
Theorem C6_categories_facets (loaded : list Idea) :
  exists rest,
    categories loaded = Category.mk "all" "All" (Z.of_nat (length loaded)) :: rest
    /\ NoDup (map Category.name rest)
    /\ (forall c, In c (map Category.name rest)
                  <-> exists idea, In idea loaded /\ In c (category idea))
    /\ FirstSeen (flat_map category loaded) (map Category.name rest)
    /\ (forall f, In f rest ->
          exists n, Counts (fun idea => In (Category.name f) (category idea)) loaded n
                    /\ Category.count f = Z.of_nat n).
Proof.
  eexists; split; [reflexivity|].
  rewrite map_map; cbn [Category.name]; rewrite map_id.
  split; [apply arrayFromSet_NoDup|].
  split; [|split; [apply arrayFromSet_FirstSeen|]].
  - intros c; rewrite arrayFromSet_In, in_flat_map; reflexivity.
  - intros f Hf; apply in_map_iff in Hf as (c & <- & _); cbn [Category.name Category.count].
    eexists; split; [|reflexivity].
    apply Counts_filter; intros idea; apply arrayIncludes_spec.
Qed.

(** ** The session: handlers, effect and timer *)

Section Session.

Lemma filteredIdeas_ext (st st' : State) :
  ideas st' = ideas st -> activeCategory st' = activeCategory st ->
  searchQuery st' = searchQuery st -> filteredIdeas st' = filteredIdeas st.
Proof. unfold filteredIdeas; now intros -> -> ->. Qed.

Lemma totalPages_ext (st st' : State) :
  ideas st' = ideas st -> activeCategory st' = activeCategory st ->
  searchQuery st' = searchQuery st -> totalPages st' = totalPages st.
Proof. intros; unfold totalPages; now rewrite (filteredIdeas_ext st st'). Qed.

Lemma depsChanged_false (prev next : State) :
  depsChanged prev next = false
  <-> activeCategory next = activeCategory prev /\ searchQuery next = searchQuery prev.
Proof.
  unfold depsChanged; rewrite negb_false_iff, andb_true_iff, !String.eqb_eq.
  intuition congruence.
Qed.

(** A step is the handler, followed by the page reset exactly when the
    handler changed [activeCategory] or [searchQuery]. *)
Lemma step_cases (st : State) (e : Event) :
  (depsChanged st (handle e st) = true /\ step st e = setCurrentPage 1 (handle e st))
  \/ (depsChanged st (handle e st) = false /\ step st e = handle e st).
Proof. unfold step, pageResetEffect; destruct (depsChanged st (handle e st)); auto. Qed.

(** The handlers leave [ideas] alone, except the completion of the load. *)
Lemma handle_ideas (st : State) (e : Event) :
  (forall data, e <> FetchOk data) -> ideas (handle e st) = ideas st.
Proof.
  intros He; destruct e as [data| | | | | | | |ms]; simpl;
    try (now destruct (loading st));
    try match goal with |- context [if ?b then _ else _] => now destruct b end.
  - now elim (He data).
  - destruct (ms <? 0); [reflexivity|].
    destruct (timeoutId st) as [[due q]|]; [|reflexivity].
    now destruct (due <=? now st + ms).
Qed.

Lemma Inv_initial : Inv initialState.
Proof. repeat split; simpl; try reflexivity; try discriminate; try easy. Qed.

Lemma Inv_empty_page (st : State) : Inv st -> ideas st = [] -> currentPage st = 1.
Proof.
  intros (Hp & _) Hi.
  assert (totalPages st = 0) by (apply totalPages_no_match; unfold filteredIdeas;
                                 now rewrite Hi).
  lia.
Qed.

Lemma handle_load_facts (st : State) (e : Event) :
  Inv st ->
  (loading (handle e st) = true ->
     error (handle e st) = None /\ ideas (handle e st) = [])
  /\ (error (handle e st) <> None -> ideas (handle e st) = []).
Proof.
  intros (_ & Hl & He).
  destruct e as [data|m|query|name|v|i| | |ms]; simpl.
  - destruct (loading st) eqn:E; [simpl | split; [congruence | exact He]].
    destruct (Hl eq_refl) as [Hn _].
    split; [discriminate | congruence].
  - destruct (loading st) eqn:E; [simpl | split; [congruence | exact He]].
    destruct (Hl eq_refl) as [_ Hi].
    split; [discriminate | auto].
  - destruct (controlsShown st); auto.
  - destruct (categoryButtonShown st name); auto.
  - destruct (controlsShown st); auto.
  - destruct (pageLinkShown st i); auto.
  - destruct (paginationShown st); auto.
  - destruct (paginationShown st); auto.
  - destruct (ms <? 0); [auto|].
    destruct (timeoutId st) as [[due q]|]; [|auto].
    destruct (due <=? now st + ms); auto.
Qed.

Lemma handle_page (st : State) (e : Event) :
  Inv st -> depsChanged st (handle e st) = false ->
  1 <= currentPage (handle e st) <= Z.max 1 (totalPages (handle e st)).
Proof.
  intros HI Hd; pose proof HI as (Hp & Hl & He).
  apply depsChanged_false in Hd as [Hac Hsq].
  destruct e as [data|m|query|name|v|i| | |ms].
  - (* FetchOk *)
    simpl in *; destruct (loading st) eqn:E; [|assumption].
    assert (currentPage st = 1) by (apply Inv_empty_page; [assumption | now apply Hl]).
    simpl; pose proof (totalPages_nonneg
                         (setLoading false (setLoading false (setIdeas data st)))).
    lia.
  - rewrite (totalPages_ext st) by (auto using handle_ideas; now apply handle_ideas).
    simpl; now destruct (loading st).
  - rewrite (totalPages_ext st) by (auto; now apply handle_ideas).
    simpl; now destruct (controlsShown st).
  - rewrite (totalPages_ext st) by (auto; now apply handle_ideas).
    simpl; now destruct (categoryButtonShown st name).
  - rewrite (totalPages_ext st) by (auto; now apply handle_ideas).
    simpl; now destruct (controlsShown st).
  - rewrite (totalPages_ext st) by (auto; now apply handle_ideas).
    simpl; destruct (pageLinkShown st i) eqn:E; [|assumption].
    unfold pageLinkShown in E.
    apply andb_true_iff in E as [E Hhi]; apply andb_true_iff in E as [_ Hlo].
    simpl; lia.
  - rewrite (totalPages_ext st) by (auto; now apply handle_ideas).
    simpl; destruct (paginationShown st); [simpl; lia | assumption].
  - rewrite (totalPages_ext st) by (auto; now apply handle_ideas).
    simpl; destruct (paginationShown st) eqn:E; [|assumption].
    unfold paginationShown in E; apply andb_true_iff in E as [_ E].
    simpl; lia.
  - rewrite (totalPages_ext st) by (auto; now apply handle_ideas).
    simpl; destruct (ms <? 0); [assumption|].
    destruct (timeoutId st) as [[due q]|]; [|assumption].
    now destruct (due <=? now st + ms).
Qed.

Lemma step_Inv (st : State) (e : Event) : Inv st -> Inv (step st e).
Proof.
  intros HI.
  destruct (handle_load_facts st e HI) as [Hl He].
  destruct (step_cases st e) as [[Hd ->]|[Hd ->]].
  - split; [|split; assumption].
    simpl; pose proof (totalPages_nonneg (setCurrentPage 1 (handle e st))); lia.
  - split; [|split; assumption].
    now apply handle_page.
Qed.

Lemma run_Inv (events : list Event) (st : State) : Inv st -> Inv (run st events).
Proof.
  revert st; induction events as [|e events IH]; intros st HI; [assumption|].
  simpl; apply IH, step_Inv, HI.
Qed.

Lemma run_app (st : State) (es1 es2 : list Event) :
  run st (es1 ++ es2) = run (run st es1) es2.
Proof. apply fold_left_app. Qed.

(** When [activeCategory] or [searchQuery] changes, the page is reset. *)
Lemma step_reset (st : State) (e : Event) :
  activeCategory (step st e) <> activeCategory st
  \/ searchQuery (step st e) <> searchQuery st ->
  currentPage (step st e) = 1.
Proof.
  destruct (step_cases st e) as [[Hd ->]|[Hd ->]]; [reflexivity|].
  apply depsChanged_false in Hd; tauto.
Qed.

End Session.

(** C7.  A step that changes [activeCategory] or [searchQuery] ends with
    [currentPage] reset to 1 (the state after an event is the one the effect
    of lines 113-115 leaves); clicking a category button sets
    [activeCategory], typing sets [searchQuery]; and in every state of a
    session [currentPage] lies in [1, max(1, totalPages)]. *)
Theorem C7_page_reset_and_range :
  (forall st e,
      activeCategory (step st e) <> activeCategory st
      \/ searchQuery (step st e) <> searchQuery st ->
      currentPage (step st e) = 1)
  /\ (forall st name,
         categoryButtonShown st name = true ->
         activeCategory (step st (CategoryClick name)) = name)
  /\ (forall st query,
         controlsShown st = true ->
         searchQuery (step st (SearchInput query)) = query)
  /\ (forall events,
         1 <= currentPage (run initialState events)
           <= Z.max 1 (totalPages (run initialState events))).
Proof.
  split; [exact step_reset|].
  split; [|split].
  - intros st name H.
    destruct (step_cases st (CategoryClick name)) as [[_ ->]|[_ ->]];
      simpl; now rewrite H.
  - intros st query H.
    destruct (step_cases st (SearchInput query)) as [[_ ->]|[_ ->]];
      simpl; now rewrite H.
  - intros events; apply (run_Inv events initialState Inv_initial).
Qed.

(** On the second page of all ideas, choosing the category AI returns to the
    first page. *)
Lemma C7_page_reset_and_range_witness :
  activeCategory (step (setCurrentPage 2 sampleLoaded) (CategoryClick "AI")) = "AI"
  /\ currentPage (step (setCurrentPage 2 sampleLoaded) (CategoryClick "AI")) = 1.
Proof.
  destruct C7_page_reset_and_range as (Hreset & Hcat & _ & _).
  split.
  - apply Hcat; reflexivity.
  - apply Hreset; left; rewrite Hcat by reflexivity; simpl; discriminate.
Defined.

(** C10.  As long as the load has not succeeded (it is pending or has
    failed), the collection is empty: the only facet is ["All"] with count
    0, and no idea is visible, whatever the category, the query and the
    page. *)
Theorem C10_empty_until_loaded (events : list Event) :
  loadState (run initialState events) <> Ready ->
  ideas (run initialState events) = []
  /\ categories (ideas (run initialState events)) = [Category.mk "all" "All" 0]
  /\ forall ac sq p,
       currentPageIdeas
         (setCurrentPage p (setSearchQuery sq (setActiveCategory ac
            (run initialState events)))) = [].
Proof.
  intros H.
  destruct (run_Inv events initialState Inv_initial) as (_ & Hl & He).
  assert (Hi : ideas (run initialState events) = []).
  { unfold loadState, loadStateOf in H.
    destruct (error (run initialState events)) eqn:E; [apply He; discriminate|].
    destruct (loading (run initialState events)); [now apply Hl | congruence]. }
  split; [assumption|]; rewrite Hi; split; [reflexivity|].
  intros ac sq p; unfold currentPageIdeas, filteredIdeas; simpl; rewrite Hi.
  apply slice_nil.
Qed.

(** A session in which the user types while the request is pending, and the
    request then fails. *)
Lemma C10_empty_until_loaded_witness :
  categories (ideas (run initialState [SearchInput "ai"; FetchFailed "rate limited"]))
  = [Category.mk "all" "All" 0].
Proof.
  apply (C10_empty_until_loaded [SearchInput "ai"; FetchFailed "rate limited"]).
  simpl; discriminate.
Defined.

(** C2, as the specification states it, fails: with no match the component computes
    0 pages, not 1. *)
Lemma C2_totalPages_counterexample :
  filteredIdeas (run sampleLoaded [SearchInput "robot"; Elapse 500]) = []
  /\ totalPages (run sampleLoaded [SearchInput "robot"; Elapse 500]) = 0
  /\ totalPages (run sampleLoaded [SearchInput "robot"; Elapse 500])
     <> Z.max 1 (Js.ceilDiv
                   (Js.len (filteredIdeas
                              (run sampleLoaded [SearchInput "robot"; Elapse 500])))
                   ITEMS_PER_PAGE).
Proof. repeat split; discriminate. Qed.

(** C2, amended.  [totalPages] is the ceiling of the number of filtered
    ideas over the page size 6, without a lower bound of 1: it is at least 1,
    and equal to [max(1, ceiling)], exactly when some idea matches, and it is
    0 when none does; then no idea is visible and the session is on page 1. *)
Theorem C2_totalPages_ceiling (st : State) :
  (6 * (totalPages st - 1) < Z.of_nat (length (filteredIdeas st)) <= 6 * totalPages st)
  /\ (filteredIdeas st <> [] ->
        1 <= totalPages st
        /\ totalPages st
           = Z.max 1 (Js.ceilDiv (Js.len (filteredIdeas st)) ITEMS_PER_PAGE))
  /\ (filteredIdeas st = [] ->
        totalPages st = 0 /\ currentPageIdeas st = []
        /\ forall events, st = run initialState events -> currentPage st = 1).
Proof.
  split; [apply totalPages_bounds|]; split.
  - intros H; apply totalPages_match in H.
    split; [assumption | unfold totalPages in *; lia].
  - intros H; pose proof (totalPages_no_match st H) as H0.
    split; [assumption|]; split.
    + unfold currentPageIdeas; rewrite H; apply slice_nil.
    + intros events ->.
      destruct (run_Inv events initialState Inv_initial) as (Hp & _); lia.
Qed.

(** After loading the seven sample ideas and searching for "robot". *)
Lemma C2_totalPages_ceiling_witness :
  totalPages (run initialState [FetchOk sampleIdeas; SearchInput "robot"; Elapse 500]) = 0
  /\ currentPage (run initialState [FetchOk sampleIdeas; SearchInput "robot"; Elapse 500]) = 1
  /\ totalPages sampleLoaded = Z.max 1 (Js.ceilDiv (Js.len (filteredIdeas sampleLoaded)) 6).
Proof.
  destruct (C2_totalPages_ceiling
              (run initialState [FetchOk sampleIdeas; SearchInput "robot"; Elapse 500]))
    as (_ & _ & H).
  destruct (H eq_refl) as (H0 & _ & Hp).
  destruct (C2_totalPages_ceiling sampleLoaded) as (_ & H1 & _).
  split; [exact H0|]; split; [apply (Hp _ eq_refl)|].
  apply H1; discriminate.
Defined.

Section Paging.

Lemma depsChanged_same (st st' : State) :
  activeCategory st' = activeCategory st -> searchQuery st' = searchQuery st ->
  depsChanged st st' = false.
Proof. intros; now apply depsChanged_false. Qed.

Lemma step_PageClick (st : State) (i : Z) :
  step st (PageClick i) = if pageLinkShown st i then setCurrentPage i st else st.
Proof.
  unfold step, pageResetEffect; rewrite depsChanged_same; [reflexivity| |];
    simpl; now destruct (pageLinkShown st i).
Qed.

Lemma step_PreviousClick (st : State) :
  step st PreviousClick
  = if paginationShown st then setCurrentPage (Z.max 1 (currentPage st - 1)) st else st.
Proof.
  unfold step, pageResetEffect; rewrite depsChanged_same; [reflexivity| |];
    simpl; now destruct (paginationShown st).
Qed.

Lemma step_NextClick (st : State) :
  step st NextClick
  = if paginationShown st
    then setCurrentPage (Z.min (totalPages st) (currentPage st + 1)) st
    else st.
Proof.
  unfold step, pageResetEffect; rewrite depsChanged_same; [reflexivity| |];
    simpl; now destruct (paginationShown st).
Qed.

End Paging.

Section PageRequests.

(** With the bar on the screen there are at least two pages, and a session
    is on one of them. *)
Lemma paginationShown_range (events : list Event) :
  paginationShown (run initialState events) = true ->
  1 <= currentPage (run initialState events) <= totalPages (run initialState events)
  /\ 1 < totalPages (run initialState events).
Proof.
  intros H; destruct (run_Inv events initialState Inv_initial) as (Hp & _).
  unfold paginationShown in H; apply andb_true_iff in H as [_ H].
  apply Z.ltb_lt in H; lia.
Qed.

Lemma pageLinkShown_inv (st : State) (i : Z) :
  pageLinkShown st i = true ->
  paginationShown st = true /\ 1 <= i <= totalPages st.
Proof.
  unfold pageLinkShown; intros H.
  apply andb_true_iff in H as [H Hhi]; apply andb_true_iff in H as [H Hlo].
  apply Z.leb_le in Hhi, Hlo; auto.
Qed.

(** Whatever an event asks for is a rendered page or next to the current
    one. *)
Lemma requestedPage_bounds (events : list Event) (e : Event) (n : Z) :
  requestedPage (run initialState events) e = Some n ->
  0 <= n <= totalPages (run initialState events) + 1.
Proof.
  destruct e as [data|m|query|name|v|i| | |ms]; simpl; try discriminate.
  - destruct (pageLinkShown _ i) eqn:E; [|discriminate].
    intros [= <-]; apply pageLinkShown_inv in E; lia.
  - destruct (paginationShown _) eqn:E; [|discriminate].
    intros [= <-]; apply paginationShown_range in E; lia.
  - destruct (paginationShown _) eqn:E; [|discriminate].
    intros [= <-]; apply paginationShown_range in E; lia.
Qed.

End PageRequests.

(** C3, as the specification states it, fails: it is not for every integer
    that a page can be asked for.  With the seven sample ideas loaded (two
    pages, page 1 current) no event asks for page 9999 or page -5; what can
    be asked for lies between 0 and 3. *)
Lemma C3_setPage_counterexample :
  ~ (forall n : Z, exists e,
        requestedPage (run initialState [FetchOk sampleIdeas]) e = Some n
        /\ currentPage (step (run initialState [FetchOk sampleIdeas]) e)
           = clamp n 1 (totalPages (run initialState [FetchOk sampleIdeas])))
  /\ (forall e, requestedPage (run initialState [FetchOk sampleIdeas]) e <> Some 9999)
  /\ (forall e, requestedPage (run initialState [FetchOk sampleIdeas]) e <> Some (-5)).
Proof.
  assert (H : forall e n,
             requestedPage (run initialState [FetchOk sampleIdeas]) e = Some n ->
             0 <= n <= 3).
  { intros e n Hn.
    pose proof (requestedPage_bounds [FetchOk sampleIdeas] e n Hn) as Hb.
    change (totalPages (run initialState [FetchOk sampleIdeas])) with 2 in Hb; lia. }
  split; [|split].
  - intros Hall; destruct (Hall 9999) as (e & He & _); apply H in He; lia.
  - intros e He; apply H in He; lia.
  - intros e He; apply H in He; lia.
Qed.

(** C3, amended.  In every state of a session, whatever page [n] an event
    asks for (the number of a rendered link, [currentPage - 1] by Previous,
    [currentPage + 1] by Next) lies in [0, totalPages + 1], and the event
    sets [currentPage] to [clamp(n, 1, totalPages)]: a request outside the
    range is clamped, not rejected.  So Previous on page 1 asks for page 0
    and yields page 1, and Next on the last page asks for page
    [totalPages + 1] and yields [totalPages]. *)
Theorem C3_requests_are_clamped (events : list Event) :
  (forall e n,
      requestedPage (run initialState events) e = Some n ->
      0 <= n <= totalPages (run initialState events) + 1
      /\ currentPage (step (run initialState events) e)
         = clamp n 1 (totalPages (run initialState events)))
  /\ (paginationShown (run initialState events) = true ->
      currentPage (run initialState events) = 1 ->
      requestedPage (run initialState events) PreviousClick = Some 0
      /\ currentPage (step (run initialState events) PreviousClick) = 1)
  /\ (paginationShown (run initialState events) = true ->
      currentPage (run initialState events) = totalPages (run initialState events) ->
      requestedPage (run initialState events) NextClick
      = Some (totalPages (run initialState events) + 1)
      /\ currentPage (step (run initialState events) NextClick)
         = totalPages (run initialState events)).
Proof.
  set (st := run initialState events).
  assert (Hreq : forall e n,
             requestedPage st e = Some n ->
             currentPage (step st e) = clamp n 1 (totalPages st)).
  { intros e n; unfold clamp.
    destruct e as [data|m|query|name|v|i| | |ms]; simpl; try discriminate.
    - destruct (pageLinkShown st i) eqn:E; [|discriminate].
      intros [= <-]; rewrite step_PageClick, E.
      apply pageLinkShown_inv in E; simpl; lia.
    - destruct (paginationShown st) eqn:E; [|discriminate].
      intros [= <-]; rewrite step_PreviousClick, E.
      apply paginationShown_range in E; fold st in E; simpl; lia.
    - destruct (paginationShown st) eqn:E; [|discriminate].
      intros [= <-]; rewrite step_NextClick, E.
      apply paginationShown_range in E; fold st in E; simpl; lia. }
  split; [|split].
  - intros e n Hn; split; [exact (requestedPage_bounds events e n Hn) | now apply Hreq].
  - intros Hs Hp.
    assert (Hr : requestedPage st PreviousClick = Some 0)
      by (simpl; rewrite Hs, Hp; reflexivity).
    split; [exact Hr|].
    rewrite (Hreq _ _ Hr); unfold clamp.
    apply paginationShown_range in Hs; fold st in Hs; lia.
  - intros Hs Hp.
    assert (Hr : requestedPage st NextClick = Some (totalPages st + 1))
      by (simpl; rewrite Hs, Hp; reflexivity).
    split; [exact Hr|].
    rewrite (Hreq _ _ Hr); unfold clamp.
    apply paginationShown_range in Hs; fold st in Hs; lia.
Qed.

(** With seven ideas on two pages: Previous on page 1 asks for page 0 and
    stays on page 1; Next on page 2 asks for page 3 and stays on page 2;
    the link of page 2 leads to page 2. *)
Lemma C3_requests_are_clamped_witness :
  currentPage (step (run initialState [FetchOk sampleIdeas]) PreviousClick) = 1
  /\ currentPage (step (run initialState [FetchOk sampleIdeas; NextClick]) NextClick) = 2
  /\ currentPage (step (run initialState [FetchOk sampleIdeas]) (PageClick 2))
     = clamp 2 1 2.
Proof.
  destruct (C3_requests_are_clamped [FetchOk sampleIdeas]) as (Hreq & Hprev & _).
  destruct (C3_requests_are_clamped [FetchOk sampleIdeas; NextClick]) as (_ & _ & Hnext).
  split; [|split].
  - apply Hprev; reflexivity.
  - apply Hnext; reflexivity.
  - apply (Hreq (PageClick 2) 2); reflexivity.
Defined.

(** ** The debounce *)

Section Debounce.

Lemma controlsShown_ext (s s' : State) :
  error s' = error s -> controlsShown s' = controlsShown s.
Proof. unfold controlsShown, errorShown; now intros ->. Qed.

Lemma timeoutRuns_app (st : State) (es1 es2 : list Event) :
  timeoutRuns st (es1 ++ es2)
  = (timeoutRuns st es1 + timeoutRuns (run st es1) es2)%nat.
Proof.
  revert st; induction es1 as [|e es1 IH]; intros st; simpl; [reflexivity|].
  rewrite IH; lia.
Qed.

(** [onSearchInputChange] stores the query at once and restarts the
    timer; the clock does not move. *)
Lemma step_SearchInput (s : State) (q : string) :
  controlsShown s = true ->
  Pending (step s (SearchInput q)) q
  /\ now (step s (SearchInput q)) = now s
  /\ firesTimeout (SearchInput q) s = false.
Proof.
  intros H; unfold Pending.
  destruct (step_cases s (SearchInput q)) as [[_ ->]|[_ ->]];
    simpl; rewrite H; simpl;
    (split; [split; [|auto] | auto]);
    rewrite <- H; now apply controlsShown_ext.
Qed.

(** Less than the delay after a call, the timer has not fired. *)
Lemma step_Elapse_short (s : State) (q : string) (g : Z) :
  Pending s q -> 0 <= g < DEBOUNCE_DELAY ->
  controlsShown (step s (Elapse g)) = true
  /\ searchQuery (step s (Elapse g)) = q
  /\ isSearching (step s (Elapse g)) = true
  /\ firesTimeout (Elapse g) s = false.
Proof.
  intros (Hc & Hq & Hs & Ht) Hg.
  assert (Hh : handle (Elapse g) s = setNow (now s + g) s).
  { simpl; rewrite Ht.
    destruct (Z.ltb_spec g 0); [lia|].
    destruct (Z.leb_spec (now s + DEBOUNCE_DELAY) (now s + g)); [lia | reflexivity]. }
  unfold step, pageResetEffect; rewrite Hh.
  rewrite depsChanged_same by reflexivity.
  simpl; rewrite Ht.
  repeat split; try assumption.
  destruct (Z.leb_spec 0 g); [|lia].
  destruct (Z.leb_spec (now s + DEBOUNCE_DELAY) (now s + g)); [lia | reflexivity].
Qed.

(** Once the delay has passed, the callback has run, once. *)
Lemma step_Elapse_long (s : State) (q : string) (ms : Z) :
  Pending s q -> DEBOUNCE_DELAY <= ms ->
  searchQuery (step s (Elapse ms)) = q
  /\ isSearching (step s (Elapse ms)) = false
  /\ timeoutId (step s (Elapse ms)) = None
  /\ currentPage (step s (Elapse ms)) = currentPage s
  /\ firesTimeout (Elapse ms) s = true.
Proof.
  intros (Hc & Hq & Hs & Ht) Hg.
  assert (H500 : DEBOUNCE_DELAY = 500) by reflexivity.
  assert (Hh : handle (Elapse ms) s
               = setNow (now s + ms) (setTimeoutId None (debouncedCallback q s))).
  { simpl; rewrite Ht.
    destruct (Z.ltb_spec ms 0); [lia|].
    destruct (Z.leb_spec (now s + DEBOUNCE_DELAY) (now s + ms));
      [reflexivity | lia]. }
  unfold step, pageResetEffect; rewrite Hh.
  rewrite depsChanged_same by (simpl; congruence).
  simpl; rewrite Ht.
  repeat split.
  destruct (Z.leb_spec 0 ms); [|lia].
  destruct (Z.leb_spec (now s + DEBOUNCE_DELAY) (now s + ms));
    [reflexivity | lia].
Qed.

Lemma run_burst (rest : list (Z * string)) (first : string) (st : State) :
  controlsShown st = true ->
  (forall gq, In gq rest -> 0 <= fst gq < DEBOUNCE_DELAY) ->
  Pending (run st (burst first rest)) (lastQuery first rest)
  /\ timeoutRuns st (burst first rest) = 0%nat.
Proof.
  revert first st; induction rest as [|[g q] rest IH]; intros first st Hc Hgaps.
  - destruct (step_SearchInput st first Hc) as (Hp & _ & Hf).
    split; [exact Hp | reflexivity].
  - destruct (step_SearchInput st first Hc) as (Hp & _ & Hf).
    destruct (step_Elapse_short _ first g Hp) as (Hc' & _ & _ & Hf');
      [apply (Hgaps (g, q)); now left|].
    destruct (IH q (step (step st (SearchInput first)) (Elapse g)) Hc') as [HP HR];
      [intros gq Hin; apply Hgaps; now right|].
    change (burst first ((g, q) :: rest))
      with (SearchInput first :: Elapse g :: burst q rest).
    split.
    + replace (lastQuery first ((g, q) :: rest)) with (lastQuery q rest); [exact HP|].
      unfold lastQuery; simpl; destruct (map snd rest) eqn:E; [reflexivity|].
      apply last_default; discriminate.
    + cbn [timeoutRuns]; rewrite Hf, Hf', HR; reflexivity.
Qed.

End Debounce.

(** C1, as the specification states it, fails: two calls 100 ms apart change
    [searchQuery] twice, and the first change, to the intermediate input,
    happens at the instant of the first call, not after a quiet period. *)
Lemma C1_debounce_counterexample :
  searchQuery (step sampleLoaded (SearchInput "a")) = "a"
  /\ now (step sampleLoaded (SearchInput "a")) = now sampleLoaded
  /\ searchQueryCommits (trace sampleLoaded (burst "a" [(100, "ab")] ++ [Elapse 500]))
     = ["a"; "ab"]
  /\ searchQuery (run sampleLoaded (burst "a" [(100, "ab")] ++ [Elapse 500])) = "ab".
Proof. repeat split. Qed.

(** C1, amended.  In a sequence of calls of [onSearchInputChange], each less
    than 500 ms after the one before, every call stores its input in
    [searchQuery] at once, sets [isSearching] and replaces the pending timer
    by one due 500 ms later; the debounced callback does not run during the
    sequence; after 500 ms without a call it has run exactly once, with the
    last input, which [searchQuery] already holds, and has cleared
    [isSearching]. *)
Theorem C1_debounce_burst (st : State) (first : string) (rest : list (Z * string)) :
  controlsShown st = true ->
  (forall gq, In gq rest -> 0 <= fst gq < DEBOUNCE_DELAY) ->
  (forall s q, controlsShown s = true ->
     searchQuery (step s (SearchInput q)) = q
     /\ isSearching (step s (SearchInput q)) = true
     /\ timeoutId (step s (SearchInput q)) = Some (now s + 500, q))
  /\ searchQuery (run st (burst first rest)) = lastQuery first rest
  /\ isSearching (run st (burst first rest)) = true
  /\ timeoutId (run st (burst first rest))
     = Some (now (run st (burst first rest)) + 500, lastQuery first rest)
  /\ timeoutRuns st (burst first rest) = 0%nat
  /\ forall ms, 500 <= ms ->
       timeoutRuns st (burst first rest ++ [Elapse ms]) = 1%nat
       /\ searchQuery (run st (burst first rest ++ [Elapse ms])) = lastQuery first rest
       /\ isSearching (run st (burst first rest ++ [Elapse ms])) = false
       /\ timeoutId (run st (burst first rest ++ [Elapse ms])) = None.
Proof.
  intros Hc Hgaps.
  destruct (run_burst rest first st Hc Hgaps) as [HP HR].
  split.
  { intros s q Hs; destruct (step_SearchInput s q Hs) as ((_ & Hq & Hi & Ht) & Hn & _).
    rewrite Hn in Ht; auto. }
  pose proof HP as (_ & Hq & Hi & Ht).
  repeat (split; [assumption|]).
  intros ms Hms.
  destruct (step_Elapse_long _ _ ms HP Hms) as (Hq' & Hi' & Ht' & _ & Hf).
  rewrite timeoutRuns_app, run_app, HR.
  cbn [timeoutRuns run fold_left]; rewrite Hf; auto.
Qed.

(** Three keystrokes, 100 and 300 ms apart, then 500 ms of quiet. *)
Lemma C1_debounce_burst_witness :
  timeoutRuns sampleLoaded (burst "r" [(100, "ro"); (300, "rob")]) = 0%nat
  /\ timeoutRuns sampleLoaded (burst "r" [(100, "ro"); (300, "rob")] ++ [Elapse 500]) = 1%nat
  /\ searchQuery (run sampleLoaded (burst "r" [(100, "ro"); (300, "rob")] ++ [Elapse 500]))
     = "rob".
Proof.
  destruct (C1_debounce_burst sampleLoaded "r" [(100, "ro"); (300, "rob")])
    as (_ & _ & _ & _ & H0 & H1).
  - reflexivity.
  - intros gq [<-|[<-|[]]]; simpl; unfold DEBOUNCE_DELAY; lia.
  - destruct (H1 500) as (H2 & H3 & _); [lia|].
    split; [exact H0|]; split; [exact H2 | exact H3].
Defined.

(** ** Loading *)

Section Loading.

Import Fetch.

(** A thrown error ends in [Failed], with the cells otherwise as they
    were. *)
Lemma fetchIdeas_throw (r : FetchResult) (c : Cells) (m : string) :
  tryBlock r c = Throw m ->
  fetchIdeas r c = mkCells (Fetch.ideas c) false (Some m).
Proof. unfold fetchIdeas; now intros ->. Qed.

(** The message thrown for an object body: the first truthy one of its
    [details] and [error], else the fixed text. *)
Lemma tryBlock_object (members : list (string * Json)) (c : Cells) :
  tryBlock (Resolved false (Parsed (JObj members))) c
  = Throw
      (match lookup "details" members with
       | Some d =>
           if truthy (Val d) then toString d
           else match lookup "error" members with
                | Some e => if truthy (Val e) then toString e else "Failed to fetch ideas"
                | None => "Failed to fetch ideas"
                end
       | None =>
           match lookup "error" members with
           | Some e => if truthy (Val e) then toString e else "Failed to fetch ideas"
           | None => "Failed to fetch ideas"
           end
       end).
Proof.
  unfold tryBlock, failureDetail, getProperty; cbn [negb].
  destruct (lookup "details" members) as [d|]; cbn [bind].
  - destruct (truthy (Val d)); cbn [bind errorMessage]; [reflexivity|].
    destruct (lookup "error" members) as [e|]; cbn [bind]; [|reflexivity].
    now destruct (truthy (Val e)).
  - change (truthy Undefined) with false; cbn iota.
    destruct (lookup "error" members) as [e|]; cbn [bind]; [|reflexivity].
    now destruct (truthy (Val e)).
Qed.

(** On a response that is not ok the [try] block always throws. *)
Lemma tryBlock_not_ok (data : Json) (c : Cells) :
  exists m, tryBlock (Resolved false (Parsed data)) c = Throw m.
Proof.
  destruct data; try (eexists; reflexivity).
  eexists; apply tryBlock_object.
Qed.

(** From the initial cells, a load ends with the error set and nothing
    stored, or with the whole body stored and no error. *)
Lemma fetchIdeas_initial_cases (r : FetchResult) :
  (exists m, fetchIdeas r initialCells = mkCells (JArr []) false (Some m))
  \/ (exists data, r = Resolved true (Parsed data)
                   /\ fetchIdeas r initialCells = mkCells data false None).
Proof.
  destruct r as [m|[|] [m|data]].
  - left; exists m; reflexivity.
  - left; exists m; reflexivity.
  - right; exists data; split; reflexivity.
  - left; exists m; reflexivity.
  - left; destruct (tryBlock_not_ok data initialCells) as [m Hm].
    exists m; now rewrite (fetchIdeas_throw _ _ m).
Qed.

Lemma truthy_string (s : string) : s <> "" -> truthy (Val (JStr s)) = true.
Proof.
  intros H; simpl; unfold Js.truthyString.
  destruct (String.eqb_spec s ""); [contradiction | reflexivity].
Qed.

End Loading.

(** The completion event changes the state cells of the component as
    [fetchIdeas] changes the raw cells. *)
Lemma completion_agrees (r : Fetch.FetchResult) (e : Event) :
  completion r = Some e ->
  loading (step initialState e) = Fetch.loading (Fetch.fetchIdeas r Fetch.initialCells)
  /\ error (step initialState e) = Fetch.error (Fetch.fetchIdeas r Fetch.initialCells)
  /\ Fetch.asIdeas (Fetch.ideas (Fetch.fetchIdeas r Fetch.initialCells))
     = Some (ideas (step initialState e)).
Proof.
  unfold completion.
  destruct (fetchIdeas_initial_cases r) as [[m ->]|(data & _ & ->)]; simpl.
  - intros [= <-]; repeat split.
  - destruct (Fetch.asIdeas data) as [l|] eqn:E; [|discriminate].
    intros [= <-]; repeat split.
Qed.

Section RawRender.

Lemma asStrings_inv (l : list Fetch.Json) (ss : list string) :
  Fetch.asStrings l = Some ss -> l = map Fetch.JStr ss.
Proof.
  revert ss; induction l as [|v l IH]; intros ss H; simpl in H.
  - now injection H as <-.
  - destruct v; try discriminate.
    destruct (Fetch.asStrings l) as [ss'|]; [|discriminate].
    injection H as <-; simpl; now rewrite (IH ss' eq_refl).
Qed.

Lemma asIdea_category (v : Fetch.Json) (i : Idea) :
  Fetch.asIdea v = Some i ->
  Fetch.getProperty v "category"
  = Fetch.Return (Fetch.Val (Fetch.JArr (map Fetch.JStr (category i)))).
Proof.
  destruct v as [| | | | |m]; try discriminate; simpl.
  destruct (Fetch.asString (Fetch.lookup "id" m)); [|discriminate].
  destruct (Fetch.asString (Fetch.lookup "title" m)); [|discriminate].
  destruct (Fetch.asString (Fetch.lookup "description" m)); [|discriminate].
  destruct (Fetch.lookup "category" m) as [[| | | |cl|]|]; simpl; try discriminate.
  destruct (Fetch.asStrings cl) as [ss|] eqn:E; [|discriminate].
  destruct (Fetch.asNumber (Fetch.lookup "prize" m)); [|discriminate].
  destruct (Fetch.asString (Fetch.lookup "difficulty" m)); [|discriminate].
  intros [= <-]; simpl; now rewrite (asStrings_inv cl ss E).
Qed.

(** On a payload that inhabits [Idea[]] line 65 does not throw, and gives
    the categories the typed [categories] starts from. *)
Lemma allCategories_typed (data : Fetch.Json) (l : list Idea) :
  Fetch.asIdeas data = Some l ->
  Fetch.allCategories data
  = Fetch.Return (map (fun c => Fetch.Val (Fetch.JStr c)) (flat_map category l)).
Proof.
  destruct data as [| | | |items|]; try discriminate; simpl.
  revert l; induction items as [|v items IH]; intros l H; simpl in H.
  - now injection H as <-.
  - destruct (Fetch.asIdea v) as [i|] eqn:Ei; [|discriminate].
    destruct (Fetch.asIdeaList items) as [is_|]; [|discriminate].
    injection H as <-.
    cbn [Fetch.flatMapCategory]; rewrite (asIdea_category v i Ei).
    cbn [Fetch.bind]; rewrite (IH is_ eq_refl); cbn [Fetch.bind].
    now rewrite map_map, <- map_app.
Qed.

(** A message that is the empty string does not bring up the error card:
    for a body whose [details] is an empty array, the thrown message is
    empty, and line 140 takes the empty [error] for no error. *)
Lemma empty_message_hides_error_card :
  Fetch.error
    (Fetch.fetchIdeas
       (Fetch.Resolved false (Fetch.Parsed (Fetch.JObj [("details", Fetch.JArr [])])))
       Fetch.initialCells) = Some ""
  /\ Fetch.errorCardShown
       (Fetch.fetchIdeas
          (Fetch.Resolved false (Fetch.Parsed (Fetch.JObj [("details", Fetch.JArr [])])))
          Fetch.initialCells) = false.
Proof. split; reflexivity. Qed.

End RawRender.

(** C8, as the specification states it, fails: for a response that is not
    ok whose body is not JSON, the message is the one of the parse error,
    which is neither a field of the body nor the generic text; for the body
    [null] it is the one of the TypeError. *)
Lemma C8_unparseable_body_counterexample :
  cellsLoadState
    (Fetch.fetchIdeas
       (Fetch.Resolved false (Fetch.Unparseable "Unexpected token < in JSON at position 0"))
       Fetch.initialCells)
  = Failed "Unexpected token < in JSON at position 0"
  /\ cellsLoadState
       (Fetch.fetchIdeas
          (Fetch.Resolved false (Fetch.Unparseable "Unexpected token < in JSON at position 0"))
          Fetch.initialCells)
     <> Failed "Failed to fetch ideas"
  /\ cellsLoadState
       (Fetch.fetchIdeas (Fetch.Resolved false (Fetch.Parsed Fetch.JNull))
          Fetch.initialCells)
     <> Failed "Failed to fetch ideas".
Proof. split; [reflexivity | split; discriminate]. Qed.

(** C8, amended.  A response that is not ok, with a JSON object as its
    body, ends the load in [Failed(message)]: [message] is the [details]
    field when the body has one (a non-empty string), else the [error] field
    when it has one, else the generic text "Failed to fetch ideas"; the body
    [{ "error": "rate limited" }] gives [Failed("rate limited")].  When the
    body is not JSON, [message] is the message of the parse error; when the
    body is [null], it is the message of the TypeError raised on reading
    [details].  In every case nothing is stored. *)
Theorem C8_failure_message (c : Fetch.Cells) :
  (forall members s,
      Fetch.lookup "details" members = Some (Fetch.JStr s) -> s <> "" ->
      Fetch.fetchIdeas (Fetch.Resolved false (Fetch.Parsed (Fetch.JObj members))) c
      = Fetch.mkCells (Fetch.ideas c) false (Some s)
      /\ cellsLoadState
           (Fetch.fetchIdeas (Fetch.Resolved false (Fetch.Parsed (Fetch.JObj members))) c)
         = Failed s)
  /\ (forall members s,
         Fetch.lookup "details" members = None ->
         Fetch.lookup "error" members = Some (Fetch.JStr s) -> s <> "" ->
         Fetch.fetchIdeas (Fetch.Resolved false (Fetch.Parsed (Fetch.JObj members))) c
         = Fetch.mkCells (Fetch.ideas c) false (Some s)
         /\ cellsLoadState
              (Fetch.fetchIdeas (Fetch.Resolved false (Fetch.Parsed (Fetch.JObj members))) c)
            = Failed s)
  /\ (forall members,
         Fetch.lookup "details" members = None ->
         Fetch.lookup "error" members = None ->
         Fetch.fetchIdeas (Fetch.Resolved false (Fetch.Parsed (Fetch.JObj members))) c
         = Fetch.mkCells (Fetch.ideas c) false (Some "Failed to fetch ideas")
         /\ cellsLoadState
              (Fetch.fetchIdeas (Fetch.Resolved false (Fetch.Parsed (Fetch.JObj members))) c)
            = Failed "Failed to fetch ideas")
  /\ cellsLoadState (Fetch.fetchIdeas rateLimited Fetch.initialCells)
     = Failed "rate limited"
  /\ (forall m,
         Fetch.fetchIdeas (Fetch.Resolved false (Fetch.Unparseable m)) c
         = Fetch.mkCells (Fetch.ideas c) false (Some m))
  /\ Fetch.fetchIdeas (Fetch.Resolved false (Fetch.Parsed Fetch.JNull)) c
     = Fetch.mkCells (Fetch.ideas c) false
         (Some "Cannot read properties of null (reading 'details')").
Proof.
  split; [|split; [|split; [|split; [|split]]]].
  - intros members s Hd Hs.
    rewrite (fetchIdeas_throw _ c s); [auto|].
    now rewrite tryBlock_object, Hd, truthy_string.
  - intros members s Hd He Hs.
    rewrite (fetchIdeas_throw _ c s); [auto|].
    now rewrite tryBlock_object, Hd, He, truthy_string.
  - intros members Hd He.
    rewrite (fetchIdeas_throw _ c "Failed to fetch ideas"); [auto|].
    now rewrite tryBlock_object, Hd, He.
  - reflexivity.
  - reflexivity.
  - reflexivity.
Qed.

(** Bodies with a [details] field, with an [error] field only, and with
    neither. *)
Lemma C8_failure_message_witness :
  cellsLoadState
    (Fetch.fetchIdeas
       (Fetch.Resolved false
          (Fetch.Parsed (Fetch.JObj [("error", Fetch.JStr "denied");
                                     ("details", Fetch.JStr "invalid API key")])))
       Fetch.initialCells)
  = Failed "invalid API key"
  /\ cellsLoadState
       (Fetch.fetchIdeas
          (Fetch.Resolved false (Fetch.Parsed (Fetch.JObj [("error", Fetch.JStr "denied")])))
          Fetch.initialCells)
     = Failed "denied"
  /\ cellsLoadState
       (Fetch.fetchIdeas
          (Fetch.Resolved false (Fetch.Parsed (Fetch.JObj [("status", Fetch.JNum "500")])))
          Fetch.initialCells)
     = Failed "Failed to fetch ideas".
Proof.
  destruct (C8_failure_message Fetch.initialCells) as (Hd & He & Hg & _).
  split; [|split].
  - apply (Hd [("error", Fetch.JStr "denied"); ("details", Fetch.JStr "invalid API key")]
             "invalid API key"); [reflexivity | discriminate].
  - apply (He [("error", Fetch.JStr "denied")] "denied");
      [reflexivity | reflexivity | discriminate].
  - apply (Hg [("status", Fetch.JNum "500")]); reflexivity.
Defined.

(** C9.  The code does not do what the specification states for a malformed
    payload: an ok response whose body is JSON but not an array of ideas is
    stored as it is, no error is set and [loading] is cleared; the error
    card is not shown; and the render that follows throws at line 65,
    outside the [try] block, instead of showing a failed load.  The same
    holds of every body that is not an array. *)
Theorem C9_malformed_payload_is_stored :
  Fetch.asIdeas malformedPayload = None
  /\ Fetch.fetchIdeas (Fetch.Resolved true (Fetch.Parsed malformedPayload))
       Fetch.initialCells
     = Fetch.mkCells malformedPayload false None
  /\ Fetch.errorCardShown
       (Fetch.fetchIdeas (Fetch.Resolved true (Fetch.Parsed malformedPayload))
          Fetch.initialCells) = false
  /\ Fetch.allCategories
       (Fetch.ideas
          (Fetch.fetchIdeas (Fetch.Resolved true (Fetch.Parsed malformedPayload))
             Fetch.initialCells))
     = Fetch.Throw "ideas.flatMap is not a function"
  /\ completion (Fetch.Resolved true (Fetch.Parsed malformedPayload)) = None
  /\ (forall data c,
         match data with
         | Fetch.JArr _ => True
         | _ =>
             Fetch.fetchIdeas (Fetch.Resolved true (Fetch.Parsed data)) c
             = Fetch.mkCells data false (Fetch.error c)
             /\ exists m, Fetch.allCategories data = Fetch.Throw m
         end).
Proof.
  repeat (split; [reflexivity|]).
  intros data c; destruct data; try exact I; (split; [reflexivity | eexists; reflexivity]).
Qed.

(** * Further properties of the component *)

(** ** Pages *)

Section Pages.

Lemma firstn_plus {A : Type} (a b : nat) (l : list A) :
  firstn (a + b) l = (firstn a l ++ firstn b (skipn a l))%list.
Proof.
  revert l; induction a as [|a IH]; intros [|x l]; simpl;
    try reflexivity; [now rewrite firstn_nil | now rewrite IH].
Qed.

(** Consecutive chunks of [k] elements, put together, are a prefix. *)
Lemma concat_chunks {A : Type} (k n : nat) (l : list A) :
  concat (map (fun j => firstn k (skipn (j * k) l)) (seq 0 n)) = firstn (n * k) l.
Proof.
  induction n as [|n IH]; [reflexivity|].
  rewrite seq_S, map_app, concat_app, IH; simpl.
  rewrite app_nil_r, (Nat.add_comm k), firstn_plus; reflexivity.
Qed.

Lemma pageIdeas_range (st : State) (p : Z) :
  1 <= p ->
  pageIdeas st p
  = firstn 6 (skipn (Z.to_nat (p - 1) * 6) (filteredIdeas st)).
Proof.
  intros Hp; unfold pageIdeas, currentPageIdeas, endIndex, startIndex.
  change (filteredIdeas (setCurrentPage p st)) with (filteredIdeas st).
  change (currentPage (setCurrentPage p st)) with p.
  rewrite slice_range by (unfold ITEMS_PER_PAGE; lia).
  unfold ITEMS_PER_PAGE; f_equal; [lia | f_equal; lia].
Qed.

Lemma pageIdeas_length (st : State) (p : Z) :
  1 <= p ->
  Z.of_nat (length (pageIdeas st p))
  = Z.max 0 (Z.min 6 (Js.len (filteredIdeas st) - 6 * (p - 1))).
Proof.
  intros Hp; rewrite pageIdeas_range by assumption.
  rewrite length_firstn, length_skipn; unfold Js.len; lia.
Qed.

Lemma filter_seq_eqb (p : Z) (s n : nat) :
  length (filter (fun k => p =? Z.of_nat k) (seq s n))
  = if (Z.of_nat s <=? p) && (p <? Z.of_nat (s + n)) then 1%nat else 0%nat.
Proof.
  revert s; induction n as [|n IH]; intros s; simpl.
  - destruct (Z.leb_spec (Z.of_nat s) p), (Z.ltb_spec p (Z.of_nat (s + 0)));
      simpl; try reflexivity; lia.
  - destruct (Z.eqb_spec p (Z.of_nat s)) as [E|E]; simpl; rewrite IH.
    + destruct (Z.leb_spec (Z.of_nat (S s)) p); [lia|]; simpl.
      destruct (Z.leb_spec (Z.of_nat s) p), (Z.ltb_spec p (Z.of_nat (s + S n)));
        simpl; try reflexivity; lia.
    + destruct (Z.leb_spec (Z.of_nat (S s)) p), (Z.ltb_spec p (Z.of_nat (S s + n))),
        (Z.leb_spec (Z.of_nat s) p), (Z.ltb_spec p (Z.of_nat (s + S n)));
        simpl; try reflexivity; lia.
Qed.

Lemma NoDup_map_inj {A B : Type} (f : A -> B) (l : list A) :
  (forall x y, f x = f y -> x = y) -> NoDup l -> NoDup (map f l).
Proof.
  intros Hf; induction 1 as [|x l Hx Hl IH]; simpl; constructor; [|assumption].
  intros Hin; apply in_map_iff in Hin as (y & E & Hy).
  apply Hf in E; now subst.
Qed.

Lemma seq_consecutive (n s : nat) (a b : Z) (rest1 rest2 : list Z) :
  map Z.of_nat (seq s n) = (rest1 ++ a :: b :: rest2)%list -> b = a + 1.
Proof.
  revert s rest1; induction n as [|n IH]; intros s rest1 H.
  - destruct rest1; discriminate.
  - destruct rest1 as [|c rest1]; simpl in H.
    + destruct n as [|n]; [discriminate|]; simpl in H.
      injection H as <- <- _; lia.
    + injection H as _ H; eapply IH; exact H.
Qed.

Lemma filter_map_length {A B : Type} (f : A -> B) (g : B -> bool) (l : list A) :
  length (filter g (map f l)) = length (filter (fun x => g (f x)) l).
Proof.
  induction l as [|x l IH]; simpl; [reflexivity|].
  destruct (g (f x)); simpl; now rewrite IH.
Qed.

Lemma setCurrentPage_same (st : State) : setCurrentPage (currentPage st) st = st.
Proof. now destruct st. Qed.

End Pages.

(** X1.  The pages of the pagination bar, one after the other, are the
    filtered ideas: every match is on exactly one page, in load order. *)
Theorem pages_partition_filtered (st : State) :
  concat (map (fun item => pageIdeas st (key item)) (generatePaginationItems st))
  = filteredIdeas st.
Proof.
  unfold generatePaginationItems; rewrite map_map; cbn [key].
  rewrite <- seq_shift, map_map.
  rewrite (map_ext _ (fun j => firstn 6 (skipn (j * 6) (filteredIdeas st)))).
  - rewrite concat_chunks; apply firstn_all2.
    pose proof (totalPages_bounds st) as [_ H]; unfold Js.len, ITEMS_PER_PAGE in H.
    lia.
  - intros j; rewrite pageIdeas_range by lia.
    now replace (Z.to_nat (Z.of_nat (S j) - 1)) with j by lia.
Qed.

(** X2.  Every page before the last holds exactly 6 ideas; the last page,
    [totalPages], holds the remaining ones, between 1 and 6; a page after
    the last is empty. *)
Theorem page_sizes (st : State) (p : Z) :
  (1 <= p < totalPages st -> Z.of_nat (length (pageIdeas st p)) = 6)
  /\ (1 <= p -> p = totalPages st ->
        1 <= Z.of_nat (length (pageIdeas st p)) <= 6
        /\ Z.of_nat (length (pageIdeas st p))
           = Js.len (filteredIdeas st) - 6 * (totalPages st - 1))
  /\ (1 <= p -> totalPages st < p -> pageIdeas st p = []).
Proof.
  pose proof (totalPages_bounds st) as Hb; unfold ITEMS_PER_PAGE in Hb.
  split; [|split].
  - intros Hp; rewrite pageIdeas_length by lia; lia.
  - intros Hp ->; rewrite pageIdeas_length by lia; lia.
  - intros Hp Hlt; apply length_zero_iff_nil.
    apply Nat2Z.inj; rewrite pageIdeas_length by lia.
    change (Z.of_nat 0) with 0; lia.
Qed.

(** The seven sample ideas: six on page 1, one on page 2, none on page 3. *)
Lemma page_sizes_witness :
  Z.of_nat (length (pageIdeas sampleLoaded 1)) = 6
  /\ Z.of_nat (length (pageIdeas sampleLoaded 2)) = 1
  /\ pageIdeas sampleLoaded 3 = [].
Proof.
  split; [|split].
  - apply (page_sizes sampleLoaded 1); split; apply Z.leb_le || apply Z.ltb_lt; reflexivity.
  - destruct (page_sizes sampleLoaded 2) as (_ & H & _).
    destruct H as [_ H]; [apply Z.leb_le; reflexivity | reflexivity | exact H].
  - apply (page_sizes sampleLoaded 3); [apply Z.leb_le | apply Z.ltb_lt]; reflexivity.
Defined.

(** X3.  The pagination bar has one item per page number from 1 to
    [totalPages], each once and in increasing order; when the current page
    is one of them, exactly one item is active, the one of the current page;
    and the click on an item is the click on the link of its page. *)
Theorem pagination_items (st : State) :
  (forall i, In i (map key (generatePaginationItems st)) <-> 1 <= i <= totalPages st)
  /\ NoDup (map key (generatePaginationItems st))
  /\ (forall a b rest1 rest2,
        map key (generatePaginationItems st) = (rest1 ++ a :: b :: rest2)%list ->
        b = a + 1)
  /\ (forall item, In item (generatePaginationItems st) ->
        (isActive item = true <-> key item = currentPage st)
        /\ onClick item = setCurrentPage (key item))
  /\ (1 <= currentPage st <= totalPages st ->
        length (filter isActive (generatePaginationItems st)) = 1%nat)
  /\ (paginationShown st = true ->
        forall item, In item (generatePaginationItems st) ->
          step st (PageClick (key item)) = onClick item st).
Proof.
  assert (Hkeys : map key (generatePaginationItems st)
                  = map Z.of_nat (seq 1 (Z.to_nat (totalPages st)))).
  { unfold generatePaginationItems; now rewrite map_map. }
  assert (Hin : forall i, In i (map key (generatePaginationItems st))
                          <-> 1 <= i <= totalPages st).
  { intros i; rewrite Hkeys, in_map_iff; split.
    - intros (n & <- & Hn); apply in_seq in Hn; lia.
    - intros Hi; exists (Z.to_nat i); split; [lia | apply in_seq; lia]. }
  split; [exact Hin|]; split; [|split; [|split; [|split]]].
  - rewrite Hkeys; apply NoDup_map_inj; [|apply seq_NoDup].
    intros x y; apply Nat2Z.inj.
  - rewrite Hkeys; apply seq_consecutive.
  - intros item Hitem; unfold generatePaginationItems in Hitem.
    apply in_map_iff in Hitem as (n & <- & _); cbn [isActive key onClick].
    split; [|reflexivity].
    rewrite Z.eqb_eq; split; congruence.
  - intros Hp; unfold generatePaginationItems.
    rewrite filter_map_length; cbn [isActive].
    rewrite filter_seq_eqb.
    destruct (Z.leb_spec (Z.of_nat 1) (currentPage st)); [|lia].
    destruct (Z.ltb_spec (currentPage st) (Z.of_nat (1 + Z.to_nat (totalPages st))));
      [reflexivity | lia].
  - intros Hshown item Hitem.
    assert (Hk : 1 <= key item <= totalPages st)
      by (apply Hin, in_map_iff; exists item; auto).
    unfold generatePaginationItems in Hitem.
    apply in_map_iff in Hitem as (n & <- & _); cbn [key onClick] in *.
    rewrite step_PageClick; unfold pageLinkShown; rewrite Hshown.
    destruct (Z.leb_spec 1 (Z.of_nat n)); [|lia].
    destruct (Z.leb_spec (Z.of_nat n) (totalPages st)); [reflexivity | lia].
Qed.

(** On the first of two pages, one item of the bar is active. *)
Lemma pagination_items_witness :
  length (filter isActive (generatePaginationItems sampleLoaded)) = 1%nat
  /\ In 2 (map key (generatePaginationItems sampleLoaded)).
Proof.
  destruct (pagination_items sampleLoaded) as (Hin & _ & _ & _ & Hone & _).
  split.
  - apply Hone; split; apply Z.leb_le; reflexivity.
  - apply Hin; split; apply Z.leb_le; reflexivity.
Defined.

(** ** Previous and Next *)

Section PreviousNext.

Lemma paginationShown_setCurrentPage (st : State) (p : Z) :
  paginationShown (setCurrentPage p st) = paginationShown st.
Proof. reflexivity. Qed.

Lemma setCurrentPage_twice (st : State) (p q : Z) :
  setCurrentPage p (setCurrentPage q st) = setCurrentPage p st.
Proof. reflexivity. Qed.

Lemma step_NextClick_shown (st : State) :
  paginationShown st = true ->
  step st NextClick = setCurrentPage (Z.min (totalPages st) (currentPage st + 1)) st.
Proof. intros H; now rewrite step_NextClick, H. Qed.

Lemma step_PreviousClick_shown (st : State) :
  paginationShown st = true ->
  step st PreviousClick = setCurrentPage (Z.max 1 (currentPage st - 1)) st.
Proof. intros H; now rewrite step_PreviousClick, H. Qed.

Lemma run_NextClicks (k : nat) (st : State) :
  paginationShown st = true -> 1 <= currentPage st <= totalPages st ->
  run st (repeat NextClick k)
  = setCurrentPage (Z.min (totalPages st) (currentPage st + Z.of_nat k)) st.
Proof.
  revert st; induction k as [|k IH]; intros st Hs Hp.
  - simpl; rewrite Z.add_0_r, Z.min_r by lia; symmetry; apply setCurrentPage_same.
  - cbn [repeat run fold_left]; fold (run (step st NextClick) (repeat NextClick k)).
    rewrite step_NextClick_shown by assumption.
    rewrite IH; [|assumption | simpl; change (totalPages (setCurrentPage _ st))
                                       with (totalPages st); lia].
    change (totalPages (setCurrentPage (Z.min (totalPages st) (currentPage st + 1)) st))
      with (totalPages st).
    rewrite setCurrentPage_twice; simpl currentPage; f_equal; lia.
Qed.

End PreviousNext.

(** X4.  Previous and Next are greyed out exactly when their click changes
    nothing: on page 1 Previous leaves the state as it is, on the last page
    Next does; on any other page Next goes one page forward and Previous one
    page back, and each undoes the other. *)
Theorem previous_next_inverse (st : State) :
  paginationShown st = true ->
  1 <= currentPage st <= totalPages st ->
  (previousInert st = true -> step st PreviousClick = st)
  /\ (nextInert st = true -> step st NextClick = st)
  /\ (nextInert st = false ->
        currentPage (step st NextClick) = currentPage st + 1
        /\ step (step st NextClick) PreviousClick = st)
  /\ (previousInert st = false ->
        currentPage (step st PreviousClick) = currentPage st - 1
        /\ step (step st PreviousClick) NextClick = st).
Proof.
  intros Hs Hp; unfold previousInert, nextInert.
  rewrite step_NextClick_shown, step_PreviousClick_shown by assumption.
  split; [|split; [|split]].
  - intros E; apply Z.eqb_eq in E.
    replace (Z.max 1 (currentPage st - 1)) with (currentPage st) by lia.
    apply setCurrentPage_same.
  - intros E; apply Z.eqb_eq in E.
    replace (Z.min (totalPages st) (currentPage st + 1)) with (currentPage st) by lia.
    apply setCurrentPage_same.
  - intros E; apply Z.eqb_neq in E.
    rewrite Z.min_r by lia; split; [reflexivity|].
    rewrite step_PreviousClick_shown by assumption.
    rewrite setCurrentPage_twice; simpl currentPage.
    replace (Z.max 1 (currentPage st + 1 - 1)) with (currentPage st) by lia.
    apply setCurrentPage_same.
  - intros E; apply Z.eqb_neq in E.
    rewrite Z.max_r by lia; split; [reflexivity|].
    rewrite step_NextClick_shown by assumption.
    rewrite setCurrentPage_twice; simpl currentPage.
    change (totalPages (setCurrentPage (currentPage st - 1) st)) with (totalPages st).
    replace (Z.min (totalPages st) (currentPage st - 1 + 1)) with (currentPage st) by lia.
    apply setCurrentPage_same.
Qed.

(** With two pages: Previous on page 1 and the round trip from page 1. *)
Lemma previous_next_inverse_witness :
  step sampleLoaded PreviousClick = sampleLoaded
  /\ step (step sampleLoaded NextClick) PreviousClick = sampleLoaded.
Proof.
  destruct (previous_next_inverse sampleLoaded) as (Hprev & _ & Hnext & _).
  - reflexivity.
  - split; apply Z.leb_le; reflexivity.
  - split; [apply Hprev; reflexivity | apply Hnext; reflexivity].
Defined.

(** X5.  [k] clicks on Next move [k] pages forward and stop at the last
    page; nothing but [currentPage] changes. *)
Theorem next_clicks (st : State) (k : nat) :
  paginationShown st = true ->
  1 <= currentPage st <= totalPages st ->
  run st (repeat NextClick k)
  = setCurrentPage (Z.min (totalPages st) (currentPage st + Z.of_nat k)) st
  /\ 1 <= currentPage (run st (repeat NextClick k)) <= totalPages st.
Proof.
  intros Hs Hp; rewrite run_NextClicks by assumption.
  split; [reflexivity | simpl; lia].
Qed.

(** Five clicks on Next from the first of two pages end on page 2. *)
Lemma next_clicks_witness :
  currentPage (run sampleLoaded (repeat NextClick 5)) = 2.
Proof.
  destruct (next_clicks sampleLoaded 5) as [H _].
  - reflexivity.
  - split; apply Z.leb_le; reflexivity.
  - rewrite H; reflexivity.
Defined.

(** X6.  Whenever an event changes the category or the query, what is
    visible afterwards is the first page of the new matches: their first 6,
    in load order. *)
Theorem filter_change_shows_first_page (st : State) (e : Event) :
  activeCategory (step st e) <> activeCategory st
  \/ searchQuery (step st e) <> searchQuery st ->
  currentPageIdeas (step st e) = firstn 6 (filteredIdeas (step st e)).
Proof.
  intros H; pose proof (step_reset st e H) as Hp.
  unfold currentPageIdeas, endIndex, startIndex; rewrite Hp.
  rewrite slice_range by (unfold ITEMS_PER_PAGE; lia); reflexivity.
Qed.

(** From page 2 of all ideas, the click on AI shows the first AI ideas. *)
Lemma filter_change_shows_first_page_witness :
  map id (currentPageIdeas (step (setCurrentPage 2 sampleLoaded) (CategoryClick "AI")))
  = ["rec1"; "rec2"; "rec4"; "rec5"; "rec7"].
Proof.
  rewrite (filter_change_shows_first_page (setCurrentPage 2 sampleLoaded)
             (CategoryClick "AI")); [reflexivity|].
  left; simpl; discriminate.
Defined.

(** X7.  A click on the button of the category that is already active
    changes nothing; in particular it does not go back to page 1. *)
Theorem reselect_active_category (st : State) :
  step st (CategoryClick (activeCategory st)) = st.
Proof.
  unfold step, pageResetEffect.
  assert (H : handle (CategoryClick (activeCategory st)) st = st).
  { simpl; destruct (categoryButtonShown st (activeCategory st)); [|reflexivity].
    now destruct st. }
  rewrite H, depsChanged_same; reflexivity.
Qed.

(** ** Search and categories *)

Section Narrowing.

Lemma string_app_assoc (a b c : string) : ((a ++ b) ++ c = a ++ (b ++ c))%string.
Proof. induction a as [|x a IH]; simpl; [reflexivity | now rewrite IH]. Qed.

Lemma containsIgnoringCase_trans (s q' q : string) :
  ContainsIgnoringCase s q' -> ContainsIgnoringCase q' q -> ContainsIgnoringCase s q.
Proof.
  intros (pre & post & Hs) (pre' & post' & Hq).
  exists (pre ++ pre')%string, (post' ++ post)%string.
  now rewrite Hs, Hq, !string_app_assoc.
Qed.

Lemma Subseq_filter_impl {A : Type} (f g : A -> bool) (l : list A) :
  (forall x, In x l -> f x = true -> g x = true) ->
  Subseq (filter f l) (filter g l).
Proof.
  induction l as [|x l IH]; intros H; simpl; [apply Subseq_nil|].
  assert (IH' : Subseq (filter f l) (filter g l))
    by (apply IH; intros y Hy; apply H; now right).
  destruct (f x) eqn:Ef.
  - rewrite (H x (or_introl eq_refl) Ef); now apply Subseq_keep.
  - destruct (g x); [now apply Subseq_skip | assumption].
Qed.

Lemma Subseq_length {A : Type} (xs ys : list A) :
  Subseq xs ys -> (length xs <= length ys)%nat.
Proof. induction 1; simpl; lia. Qed.

Lemma ceilDiv_mono (n m d : Z) : 0 < d -> n <= m -> Js.ceilDiv n d <= Js.ceilDiv m d.
Proof. intros Hd H; unfold Js.ceilDiv; apply Z.div_le_mono; lia. Qed.

Lemma totalPages_Subseq (st st' : State) :
  Subseq (filteredIdeas st') (filteredIdeas st) -> totalPages st' <= totalPages st.
Proof.
  intros H; apply Subseq_length in H.
  unfold totalPages; apply ceilDiv_mono; [reflexivity | unfold Js.len; lia].
Qed.

Lemma lowerUnit_idempotent (c : ascii) : Js.lowerUnit (Js.lowerUnit c) = Js.lowerUnit c.
Proof. destruct c as [[] [] [] [] [] [] [] []]; reflexivity. Qed.

Lemma toLowerCase_idempotent (s : string) :
  Js.toLowerCase (Js.toLowerCase s) = Js.toLowerCase s.
Proof.
  induction s as [|c s IH]; simpl; [reflexivity|].
  now rewrite lowerUnit_idempotent, IH.
Qed.

Lemma filteredIdeas_empty_query (st : State) :
  filteredIdeas (setSearchQuery "" st)
  = filter (fun idea => (activeCategory st =? "All")%string
                        || Js.arrayIncludes (category idea) (activeCategory st))
      (ideas st).
Proof.
  unfold filteredIdeas, matchesFilter; simpl.
  apply filter_ext; intros idea.
  now rewrite !includes_empty, andb_true_r.
Qed.

Lemma filter_all {A : Type} (f : A -> bool) (l : list A) :
  (forall x, In x l -> f x = true) -> filter f l = l.
Proof.
  induction l as [|x l IH]; intros H; simpl; [reflexivity|].
  rewrite (H x (or_introl eq_refl)), IH; [reflexivity|].
  intros y Hy; apply H; now right.
Qed.

Lemma filter_length_lt {A : Type} (f : A -> bool) (l : list A) (x : A) :
  In x l -> f x = false -> (length (filter f l) < length l)%nat.
Proof.
  induction l as [|y l IH]; intros Hin Hx; [contradiction|].
  simpl; pose proof (filter_length_le f l).
  destruct Hin as [->|Hin].
  - rewrite Hx; lia.
  - specialize (IH Hin Hx); destruct (f y); simpl; lia.
Qed.

Lemma filter_nonempty {A : Type} (f : A -> bool) (l : list A) (x : A) :
  In x l -> f x = true -> (1 <= length (filter f l))%nat.
Proof.
  intros Hin Hx.
  assert (H : In x (filter f l)) by (apply filter_In; auto).
  destruct (filter f l); [contradiction | simpl; lia].
Qed.

End Narrowing.

(** X8.  A narrower query never adds results: when the old query occurs,
    lower-cased, in the lower-cased new query, the matches of the new query
    are among the old matches, in the same order, and there are no more
    pages than before. *)
Theorem longer_query_narrows (st : State) (q q' : string) :
  ContainsIgnoringCase q' q ->
  Subseq (filteredIdeas (setSearchQuery q' st)) (filteredIdeas (setSearchQuery q st))
  /\ totalPages (setSearchQuery q' st) <= totalPages (setSearchQuery q st).
Proof.
  intros Hq.
  assert (H : Subseq (filteredIdeas (setSearchQuery q' st))
                (filteredIdeas (setSearchQuery q st))).
  { unfold filteredIdeas; simpl; apply Subseq_filter_impl.
    intros idea _; rewrite !matchesFilter_spec.
    intros [Hc [Ht|Hd]]; split; auto; [left | right];
      eapply containsIgnoringCase_trans; eauto. }
  split; [exact H | now apply totalPages_Subseq].
Qed.

(** From "idea" to "Idea 7": one of the seven matches is left. *)
Lemma longer_query_narrows_witness :
  Subseq (filteredIdeas (setSearchQuery "Idea 7" sampleLoaded))
    (filteredIdeas (setSearchQuery "idea" sampleLoaded)).
Proof.
  apply (longer_query_narrows sampleLoaded "idea" "Idea 7").
  exists "", " 7"; reflexivity.
Defined.

(** X9.  A category never shows more than ["All"]: for the same query, the
    matches under any active category are among the matches under ["All"],
    in the same order. *)
Theorem category_narrows (st : State) :
  Subseq (filteredIdeas st) (filteredIdeas (setActiveCategory "All" st))
  /\ totalPages st <= totalPages (setActiveCategory "All" st).
Proof.
  assert (H : Subseq (filteredIdeas st) (filteredIdeas (setActiveCategory "All" st))).
  { unfold filteredIdeas; simpl; apply Subseq_filter_impl.
    intros idea _; unfold matchesFilter; simpl.
    rewrite !andb_true_iff; tauto. }
  split; [exact H | now apply totalPages_Subseq].
Qed.

(** X10.  The search ignores the case of the query: lower-casing is
    idempotent, a query and its lower-cased form give the same matches, and
    so do any two queries that differ only in case. *)
Theorem query_case_is_ignored :
  (forall s, Js.toLowerCase (Js.toLowerCase s) = Js.toLowerCase s)
  /\ (forall st q,
         filteredIdeas (setSearchQuery (Js.toLowerCase q) st)
         = filteredIdeas (setSearchQuery q st))
  /\ (forall st q q',
         Js.toLowerCase q = Js.toLowerCase q' ->
         filteredIdeas (setSearchQuery q st) = filteredIdeas (setSearchQuery q' st)).
Proof.
  split; [exact toLowerCase_idempotent|].
  assert (H : forall st q q', Js.toLowerCase q = Js.toLowerCase q' ->
                filteredIdeas (setSearchQuery q st) = filteredIdeas (setSearchQuery q' st)).
  { intros st q q' E; unfold filteredIdeas, matchesFilter; simpl; now rewrite E. }
  split; [|exact H].
  intros st q; apply H, toLowerCase_idempotent.
Qed.

(** "IDEA 7" and "idea 7". *)
Lemma query_case_is_ignored_witness :
  filteredIdeas (setSearchQuery "IDEA 7" sampleLoaded)
  = filteredIdeas (setSearchQuery "idea 7" sampleLoaded).
Proof.
  destruct query_case_is_ignored as (_ & _ & H); apply H; reflexivity.
Defined.

(** X11.  The count on a category button is the number of ideas its click
    shows when the search is empty, for the ["All"] button and for every
    label other than the text "All". *)
Theorem facet_count_is_selection_size (st : State) (f : Category.t) :
  In f (categories (ideas st)) ->
  Category.id f = "all" \/ Category.name f <> "All" ->
  Js.len (filteredIdeas (setSearchQuery "" (setActiveCategory (Category.name f) st)))
  = Category.count f.
Proof.
  intros Hf Hname; rewrite filteredIdeas_empty_query; simpl.
  destruct Hf as [<-|Hf]; simpl.
  - now rewrite filter_all.
  - apply in_map_iff in Hf as (c & <- & _); simpl in *.
    destruct (String.eqb_spec c "All") as [->|_].
    + destruct Hname; [discriminate | congruence].
    + reflexivity.
Qed.

(** The AI button of the sample says 5, and its click shows 5 ideas. *)
Lemma facet_count_is_selection_size_witness :
  Js.len (filteredIdeas (setSearchQuery "" (setActiveCategory "AI" sampleLoaded))) = 5.
Proof.
  apply (facet_count_is_selection_size sampleLoaded (Category.mk "AI" "AI" 5)).
  - right; left; reflexivity.
  - right; discriminate.
Defined.

(** X12.  Every label facet counts at least one idea and at most all of
    them. *)
Theorem facet_count_bounds (loaded : list Idea) (f : Category.t) :
  In f (tl (categories loaded)) ->
  1 <= Category.count f <= Js.len loaded.
Proof.
  simpl; intros Hf; apply in_map_iff in Hf as (c & <- & Hc); simpl.
  apply arrayFromSet_In, in_flat_map in Hc as (idea & Hin & Hcat).
  apply arrayIncludes_spec in Hcat.
  pose proof (filter_length_le (fun idea => Js.arrayIncludes (category idea) c) loaded).
  pose proof (filter_nonempty (fun idea => Js.arrayIncludes (category idea) c)
                loaded idea Hin Hcat).
  unfold Js.len; lia.
Qed.

(** The Web facet of the sample. *)
Lemma facet_count_bounds_witness : 1 <= 2 <= Js.len sampleIdeas.
Proof.
  apply (facet_count_bounds sampleIdeas (Category.mk "Web" "Web" 2)).
  right; left; reflexivity.
Defined.

(** X13.  A category label that is the text "All" cannot be told from the
    sentinel: its button counts the ideas tagged "All", but its click shows
    every idea; when some idea lacks the tag, the button shows fewer than the
    click does. *)
Theorem label_All_collides (loaded : list Idea) :
  (exists idea, In idea loaded /\ In "All" (category idea)) ->
  (exists idea, In idea loaded /\ ~ In "All" (category idea)) ->
  exists f,
    In f (tl (categories loaded)) /\ Category.name f = "All"
    /\ filteredIdeas (setSearchQuery "" (setActiveCategory (Category.name f)
                                           (setIdeas loaded initialState)))
       = loaded
    /\ Category.count f < Js.len loaded.
Proof.
  intros (tagged & Hin & Htag) (other & Hin' & Hno).
  eexists (Category.mk "All" "All" _); split; [|split; [reflexivity|split]].
  - simpl; apply in_map_iff; exists "All"; split; [reflexivity|].
    apply arrayFromSet_In, in_flat_map; eauto.
  - rewrite filteredIdeas_empty_query; simpl; now apply filter_all.
  - simpl; unfold Js.len; apply inj_lt.
    apply (filter_length_lt _ loaded other Hin').
    now apply arrayIncludes_false.
Qed.

(** Two ideas, one of them tagged "All". *)
Lemma label_All_collides_witness :
  exists f,
    In f (tl (categories [sampleIdea "1" ["All"]; sampleIdea "2" ["Web"]]))
    /\ Category.name f = "All"
    /\ Category.count f < 2.
Proof.
  destruct (label_All_collides [sampleIdea "1" ["All"]; sampleIdea "2" ["Web"]])
    as (f & Hf & Hn & _ & Hc).
  - exists (sampleIdea "1" ["All"]); split; [now left | now left].
  - exists (sampleIdea "2" ["Web"]); split; [right; now left|].
    intros [H|[]]; discriminate.
  - exists f; auto.
Defined.

(** X14.  [Array.from(new Set(l))] returns [l] itself exactly when [l] has
    no repetition, and removing repetitions twice is removing them once: the
    label facets of ideas with pairwise distinct labels come in load
    order. *)
Theorem arrayFromSet_fixed (l : list string) :
  (Js.arrayFromSet l = l <-> NoDup l)
  /\ Js.arrayFromSet (Js.arrayFromSet l) = Js.arrayFromSet l.
Proof.
  assert (H : forall l, NoDup l -> Js.arrayFromSet l = l).
  { clear l; intros l; induction l as [|x l IH] using rev_ind; intros Hnd;
      [reflexivity|].
    rewrite arrayFromSet_snoc.
    apply NoDup_remove in Hnd as [Hnd Hx]; rewrite app_nil_r in Hnd, Hx.
    rewrite (IH Hnd); unfold Js.setAdd.
    apply arrayIncludes_false in Hx; now rewrite Hx. }
  split; [split|].
  - intros <-; apply arrayFromSet_NoDup.
  - apply H.
  - apply H, arrayFromSet_NoDup.
Qed.

(** ** The debounce in a session *)

Section Timer.

Lemma TimerInv_ext (st st' : State) :
  timeoutId st' = timeoutId st -> isSearching st' = isSearching st ->
  searchQuery st' = searchQuery st -> now st' = now st ->
  TimerInv st -> TimerInv st'.
Proof. unfold TimerInv; now intros -> -> -> ->. Qed.

Lemma handle_TimerInv (st : State) (e : Event) : TimerInv st -> TimerInv (handle e st).
Proof.
  intros H; destruct e as [data|m|query|name|v|i| | |ms]; simpl.
  - destruct (loading st); [|assumption]; now apply (TimerInv_ext st).
  - destruct (loading st); [|assumption]; now apply (TimerInv_ext st).
  - destruct (controlsShown st); [|assumption].
    unfold TimerInv; simpl; unfold DEBOUNCE_DELAY; repeat split; lia.
  - destruct (categoryButtonShown st name); [|assumption]; now apply (TimerInv_ext st).
  - destruct (controlsShown st); [|assumption]; now apply (TimerInv_ext st).
  - destruct (pageLinkShown st i); [|assumption]; now apply (TimerInv_ext st).
  - destruct (paginationShown st); [|assumption]; now apply (TimerInv_ext st).
  - destruct (paginationShown st); [|assumption]; now apply (TimerInv_ext st).
  - destruct (Z.ltb_spec ms 0); [assumption|].
    unfold TimerInv in *.
    destruct (timeoutId st) as [[due q]|] eqn:E.
    + destruct (Z.leb_spec due (now st + ms)); simpl; [reflexivity|].
      rewrite E; destruct H as (Hs & Hq & Hd); repeat split; auto; lia.
    + simpl; now rewrite E.
Qed.

Lemma step_TimerInv (st : State) (e : Event) : TimerInv st -> TimerInv (step st e).
Proof.
  intros H; apply (handle_TimerInv st e) in H.
  destruct (step_cases st e) as [[_ ->]|[_ ->]]; [|assumption].
  now apply (TimerInv_ext (handle e st)).
Qed.

Lemma run_TimerInv (events : list Event) (st : State) :
  TimerInv st -> TimerInv (run st events).
Proof.
  revert st; induction events as [|e events IH]; intros st H; [assumption|].
  simpl; apply IH, step_TimerInv, H.
Qed.

Lemma TimerInv_initial : TimerInv initialState.
Proof. reflexivity. Qed.

(** Once the load has completed, the cells it wrote stay as they are. *)
Lemma step_loaded (st : State) (e : Event) :
  loading st = false ->
  loading (step st e) = false /\ ideas (step st e) = ideas st
  /\ error (step st e) = error st.
Proof.
  intros H.
  assert (Hh : loading (handle e st) = false /\ ideas (handle e st) = ideas st
               /\ error (handle e st) = error st).
  { destruct e as [data|m|query|name|v|i| | |ms]; simpl; rewrite ?H; auto.
    - destruct (controlsShown st); auto.
    - destruct (categoryButtonShown st name); auto.
    - destruct (controlsShown st); auto.
    - destruct (pageLinkShown st i); auto.
    - destruct (paginationShown st); auto.
    - destruct (paginationShown st); auto.
    - destruct (ms <? 0); auto.
      destruct (timeoutId st) as [[due q]|]; auto.
      destruct (due <=? now st + ms); auto. }
  destruct (step_cases st e) as [[_ ->]|[_ ->]]; exact Hh.
Qed.

End Timer.

(** X15.  In every state of a session the searching skeleton is on exactly
    while a debounced call is pending; the pending call carries the query
    [searchQuery] already holds and is due within 500 ms; so results are on
    the screen only when no call is pending. *)
Theorem debounce_invariant (events : list Event) :
  (isSearching (run initialState events) = true
   <-> timeoutId (run initialState events) <> None)
  /\ (forall due q,
        timeoutId (run initialState events) = Some (due, q) ->
        searchQuery (run initialState events) = q
        /\ now (run initialState events) < due <= now (run initialState events) + 500)
  /\ (resultsShown (run initialState events) = true ->
        timeoutId (run initialState events) = None).
Proof.
  pose proof (run_TimerInv events initialState TimerInv_initial) as H.
  unfold TimerInv in H; unfold resultsShown.
  destruct (timeoutId (run initialState events)) as [[due q]|].
  - destruct H as (Hs & Hq & Hd); rewrite Hs; split; [|split].
    + split; [discriminate | reflexivity].
    + intros due' q' [= <- <-]; auto.
    + rewrite andb_false_r; discriminate.
  - rewrite H; split; [|split]; [split; congruence | discriminate | reflexivity].
Qed.

(** While a keystroke waits for its 500 ms, the results are hidden. *)
Lemma debounce_invariant_witness :
  searchQuery (run initialState [FetchOk sampleIdeas; SearchInput "ai"; Elapse 200]) = "ai"
  /\ resultsShown (run initialState [FetchOk sampleIdeas; SearchInput "ai"; Elapse 200])
     = false.
Proof.
  destruct (debounce_invariant [FetchOk sampleIdeas; SearchInput "ai"; Elapse 200])
    as (_ & H & Hres).
  split.
  - apply (H 500 "ai"); reflexivity.
  - destruct (resultsShown _) eqn:E; [|reflexivity].
    specialize (Hres eq_refl); discriminate.
Defined.

(** X16.  After any session, 500 ms without an event end the search: the
    skeleton is off and no call is pending; the debounced callback changes
    neither the query, nor the category, nor the page, nor the ideas. *)
Theorem quiet_period_settles (events : list Event) (ms : Z) :
  500 <= ms ->
  isSearching (step (run initialState events) (Elapse ms)) = false
  /\ timeoutId (step (run initialState events) (Elapse ms)) = None
  /\ searchQuery (step (run initialState events) (Elapse ms))
     = searchQuery (run initialState events)
  /\ activeCategory (step (run initialState events) (Elapse ms))
     = activeCategory (run initialState events)
  /\ currentPage (step (run initialState events) (Elapse ms))
     = currentPage (run initialState events)
  /\ ideas (step (run initialState events) (Elapse ms))
     = ideas (run initialState events).
Proof.
  intros Hms.
  pose proof (run_TimerInv events initialState TimerInv_initial) as H.
  set (st := run initialState events) in *.
  unfold TimerInv, DEBOUNCE_DELAY in H.
  assert (Hh : handle (Elapse ms) st
               = match timeoutId st with
                 | Some (_, q) =>
                     setNow (now st + ms) (setTimeoutId None (debouncedCallback q st))
                 | None => setNow (now st + ms) st
                 end).
  { simpl; destruct (Z.ltb_spec ms 0); [lia|].
    destruct (timeoutId st) as [[due q]|]; [|reflexivity].
    destruct (Z.leb_spec due (now st + ms)); [reflexivity | lia]. }
  unfold step, pageResetEffect; rewrite Hh.
  destruct (timeoutId st) as [[due q]|] eqn:E.
  - destruct H as (_ & Hq & _).
    rewrite depsChanged_same by (simpl; congruence).
    simpl; repeat split; congruence.
  - rewrite depsChanged_same by reflexivity.
    simpl; rewrite E; repeat split; assumption.
Qed.

(** Half a second after the last keystroke. *)
Lemma quiet_period_settles_witness :
  isSearching (step (run initialState [FetchOk sampleIdeas; SearchInput "ai"])
                 (Elapse 500)) = false.
Proof.
  apply (quiet_period_settles [FetchOk sampleIdeas; SearchInput "ai"] 500).
  apply Z.leb_le; reflexivity.
Defined.

(** X17.  The load completes once: after it, successful or failed, no
    event changes the stored ideas, the error or the loading flag, so the
    collection is never refetched and a failure is never retried. *)
Theorem load_is_final (st : State) (events : list Event) :
  loading st = false ->
  loading (run st events) = false
  /\ ideas (run st events) = ideas st
  /\ error (run st events) = error st
  /\ loadState (run st events) = loadState st.
Proof.
  assert (Hrun : loading st = false ->
                 loading (run st events) = false
                 /\ ideas (run st events) = ideas st
                 /\ error (run st events) = error st).
  { revert st; induction events as [|e events IH]; intros st H; [auto|].
    destruct (step_loaded st e H) as (Hl & Hi & He).
    destruct (IH (step st e) Hl) as (Hl' & Hi' & He').
    change (run st (e :: events)) with (run (step st e) events).
    repeat split; congruence. }
  intros H; destruct (Hrun H) as (Hl & Hi & He).
  unfold loadState; repeat split; congruence.
Qed.

(** After a failed load, a second completion and a keystroke change
    nothing of it. *)
Lemma load_is_final_witness :
  loadState (run (step initialState (FetchFailed "rate limited"))
               [FetchOk sampleIdeas; SearchInput "ai"; Elapse 500])
  = Failed "rate limited".
Proof.
  destruct (load_is_final (step initialState (FetchFailed "rate limited"))
              [FetchOk sampleIdeas; SearchInput "ai"; Elapse 500]) as (_ & _ & _ & H).
  - reflexivity.
  - rewrite H; reflexivity.
Defined.

(** X18.  Once the error card is shown, no keystroke and no click has any
    effect: the card replaces the input, the buttons and the pagination. *)
Theorem error_card_blocks_input (st : State) (e : Event) :
  errorShown st = true ->
  match e with
  | SearchInput _ | CategoryClick _ | ViewClick _
  | PageClick _ | PreviousClick | NextClick => step st e = st
  | _ => True
  end.
Proof.
  intros H; unfold step, pageResetEffect.
  assert (Hc : controlsShown st = false) by (unfold controlsShown; now rewrite H).
  destruct e; try exact I; simpl;
    unfold pageLinkShown, categoryButtonShown, paginationShown, resultsShown;
    rewrite Hc; simpl; now rewrite depsChanged_same.
Qed.

(** Typing after the load has failed. *)
Lemma error_card_blocks_input_witness :
  step (step initialState (FetchFailed "rate limited")) (SearchInput "ai")
  = step initialState (FetchFailed "rate limited").
Proof.
  apply (error_card_blocks_input (step initialState (FetchFailed "rate limited"))
           (SearchInput "ai")).
  reflexivity.
Defined.

(** ** More on loading *)

Section FetchOutcome.

Lemma tryBlock_shape (r : Fetch.FetchResult) (c : Fetch.Cells) :
  (exists m, Fetch.tryBlock r c = Fetch.Throw m)
  \/ (exists data,
         r = Fetch.Resolved true (Fetch.Parsed data)
         /\ Fetch.tryBlock r c
            = Fetch.Return (Fetch.setLoading false (Fetch.setIdeas data c))).
Proof.
  destruct r as [m|[|] [m|data]]; simpl; eauto.
  left; apply (tryBlock_not_ok data c).
Qed.

Lemma string_app_length (a b : string) :
  String.length (a ++ b) = (String.length a + String.length b)%nat.
Proof. induction a as [|x a IH]; simpl; [reflexivity | now rewrite IH]. Qed.

Lemma includes_length (s sub : string) :
  Js.includes s sub = true -> (String.length sub <= String.length s)%nat.
Proof.
  intros H; apply includes_spec in H as (pre & post & ->).
  rewrite !string_app_length; lia.
Qed.

End FetchOutcome.

(** X19.  Whatever the outcome and whatever the cells before,
    [fetchIdeas] ends with [loading] off and does one of two things: it sets
    the error and leaves the stored ideas alone, or, for an ok response with
    a JSON body only, it stores the body and leaves the error as it was; it
    never clears an error. *)
Theorem fetchIdeas_outcome (r : Fetch.FetchResult) (c : Fetch.Cells) :
  Fetch.loading (Fetch.fetchIdeas r c) = false
  /\ ((exists m,
          Fetch.error (Fetch.fetchIdeas r c) = Some m
          /\ Fetch.ideas (Fetch.fetchIdeas r c) = Fetch.ideas c)
      \/ (exists data,
             r = Fetch.Resolved true (Fetch.Parsed data)
             /\ Fetch.ideas (Fetch.fetchIdeas r c) = data
             /\ Fetch.error (Fetch.fetchIdeas r c) = Fetch.error c)).
Proof.
  unfold Fetch.fetchIdeas.
  destruct (tryBlock_shape r c) as [[m ->]|(data & -> & ->)]; simpl.
  - split; [reflexivity | left; exists m; auto].
  - split; [reflexivity | right; exists data; auto].
Qed.



(** X21.  For a response that is not ok whose JSON body is not an object:
    [null] fails on reading [details], and the message is that of the
    TypeError; a boolean, a number, a string or an array has neither field,
    and the message is the generic text.  Nothing is stored. *)
Theorem failure_message_non_object (data : Fetch.Json) (c : Fetch.Cells) :
  match data with
  | Fetch.JObj _ => True
  | Fetch.JNull =>
      Fetch.fetchIdeas (Fetch.Resolved false (Fetch.Parsed data)) c
      = Fetch.mkCells (Fetch.ideas c) false
          (Some "Cannot read properties of null (reading 'details')")
  | _ =>
      Fetch.fetchIdeas (Fetch.Resolved false (Fetch.Parsed data)) c
      = Fetch.mkCells (Fetch.ideas c) false (Some "Failed to fetch ideas")
  end.
Proof. destruct data; try exact I; reflexivity. Qed.

(** X22.  A query whose lower-cased form is longer than the lower-cased
    title and the lower-cased description of an idea does not match it. *)
Theorem long_query_matches_nothing (st : State) (idea : Idea) :
  In idea (filteredIdeas st) ->
  (String.length (Js.toLowerCase (searchQuery st))
   <= Nat.max (String.length (Js.toLowerCase (title idea)))
        (String.length (Js.toLowerCase (description idea))))%nat.
Proof.
  intros H; apply filter_In in H as [_ H]; unfold matchesFilter in H.
  apply andb_true_iff in H as [_ H]; apply orb_true_iff in H as [H|H];
    apply includes_length in H; lia.
Qed.

(** "Idea 7" has 6 characters; the title of the seventh idea has as many. *)
Lemma long_query_matches_nothing_witness :
  (String.length (Js.toLowerCase "Idea 7")
   <= Nat.max (String.length (Js.toLowerCase (title (sampleIdea "7" ["Crypto"; "AI"]))))
        (String.length
           (Js.toLowerCase (description (sampleIdea "7" ["Crypto"; "AI"])))))%nat.
Proof.
  apply (long_query_matches_nothing (setSearchQuery "Idea 7" sampleLoaded)
           (sampleIdea "7" ["Crypto"; "AI"])).
  simpl; auto.
Defined.
